(** * ReceiptScan: a shallow embedding of the capture-to-record workflow

    The development follows the layout of the repository:
    - [JS]      the fragments of the JavaScript runtime the code relies on
                (IEEE-754 numbers, truthiness, [parseFloat], [JSON.parse]);
    - [Types]   [types.ts] and the [ExtractedReceipt] interface;
    - [Gemini]  [services/gemini.ts], the extraction client;
    - [Server]  [server.ts], the Express handlers over the SQLite table;
    - [Review]  the [ReviewDetailView] form of [App.tsx];
    - [Report]  the aggregates of [ReceiptListView] in [App.tsx];
    - [Session] the [App] component seen as an event-driven state machine;
    - [Samples] the data the examples run on.

    JavaScript numbers are binary64 floats; they are modelled by Rocq's
    primitive floats, which implement the same format and rounding. *)

From Stdlib Require Import ZArith List String Ascii Bool Lia.
From Stdlib Require Import PrimFloat FloatOps SpecFloat.
From Stdlib Require Import Sorting.Permutation Sorting.Sorted.
Import ListNotations.

Set Warnings "-inexact-float,-register-all".

Local Open Scope string_scope.
Local Open Scope list_scope.

(* ================================================================== *)
(** * The JavaScript runtime fragments used by the code *)
(* ================================================================== *)

Module JS.

(** A JavaScript [number]. *)
Definition number : Type := float.

Definition NaN : number := PrimFloat.nan.

Definition isNaN (x : number) : bool := PrimFloat.is_nan x.

(** [ToBoolean] on a number: false exactly for [NaN], [+0] and [-0]. *)
Definition truthy_number (x : number) : bool :=
  negb (PrimFloat.is_nan x || PrimFloat.is_zero x).

(** [ToBoolean] on a string: false exactly for the empty string. *)
Definition truthy_string (s : string) : bool :=
  match s with
  | EmptyString => false
  | String _ _ => true
  end.

(** [x || d] on numbers. *)
Definition or_number (x d : number) : number :=
  if truthy_number x then x else d.

(** [array.length] as a number.  The conversion is exact for every length an
    array can have (lengths stay below 2^32). *)
Definition of_nat (n : nat) : number :=
  SF2Prim (binary_normalize prec emax (Z.of_nat n) 0 false).

(** ** Decimal literals

    [parseFloat] and [JSON.parse] read decimal literals; the value of a
    literal is the binary64 number nearest to [m * 10^e] (ties to even). *)

Definition is_digit (c : ascii) : bool :=
  (48 <=? nat_of_ascii c)%nat && (nat_of_ascii c <=? 57)%nat.

Definition digit_value (c : ascii) : Z := Z.of_nat (nat_of_ascii c - 48).

(** Reads the longest run of decimal digits at the head of [s], appending
    them to the numeral [acc]; returns the numeral, the number of digits read
    and the rest of the string. *)
Fixpoint digits (s : string) (acc : Z) (n : nat) : Z * nat * string :=
  match s with
  | String c s' =>
      if is_digit c then digits s' (10 * acc + digit_value c)%Z (S n)
      else (acc, n, s)
  | EmptyString => (acc, n, s)
  end.

Definition decimal_to_number (neg : bool) (m e : Z) : number :=
  match m with
  | Z0 => if neg then (-0)%float else 0%float
  | Zpos p =>
      if (0 <=? e)%Z
      then SF2Prim (binary_normalize prec emax
                      (if neg then Z.neg p * 10 ^ e else Z.pos p * 10 ^ e)%Z 0 neg)
      else SF2Prim (SFdiv prec emax (S754_finite neg p 0)
                      (S754_finite false (Z.to_pos (10 ^ (- e))) 0))
  | Zneg _ => NaN
  end.

(** [ExponentPart]: [e] or [E], an optional sign and at least one digit.
    Returns the exponent and the rest; without a well-formed exponent part
    nothing is consumed. *)
Definition exponent_part (s : string) : Z * string :=
  match s with
  | String c s' =>
      if Ascii.eqb c "e" || Ascii.eqb c "E" then
        let '(neg, s'') :=
          match s' with
          | String "+" t => (false, t)
          | String "-" t => (true, t)
          | _ => (false, s')
          end in
        let '(v, n, rest) := digits s'' 0 0 in
        match n with
        | O => (0%Z, s)
        | S _ => ((if neg then - v else v)%Z, rest)
        end
      else (0%Z, s)
  | EmptyString => (0%Z, s)
  end.

(** The longest prefix of [s] that is a [StrUnsignedDecimalLiteral] other than
    [Infinity]: the numeral [m], the decimal exponent [e] and the rest of the
    string; [None] when no prefix is one. *)
Definition unsigned_decimal (s : string) : option (Z * Z * string) :=
  let '(ip, ni, r1) := digits s 0 0 in
  match r1 with
  | String "." r1' =>
      let '(fp, nf, r2) := digits r1' ip 0 in
      match ni, nf with
      | O, O => None
      | _, _ =>
          let '(ex, r3) := exponent_part r2 in
          Some (fp, (ex - Z.of_nat nf)%Z, r3)
      end
  | _ =>
      match ni with
      | O => None
      | S _ =>
          let '(ex, r3) := exponent_part r1 in
          Some (ip, ex, r3)
      end
  end.

(** [TrimString(s, start)]: drops leading WhiteSpace and LineTerminator code
    points.  Strings are UTF-8 byte strings, so the code points beyond ASCII
    (U+00A0, U+1680, U+2000..U+200A, U+2028, U+2029, U+202F, U+205F, U+3000,
    U+FEFF) are matched by their encodings. *)
Definition is_ascii_space (c : ascii) : bool :=
  let n := nat_of_ascii c in
  ((9 <=? n) && (n <=? 13) || (n =? 32))%nat.

Fixpoint trim_start (s : string) : string :=
  match s with
  | String c r =>
      if is_ascii_space c then trim_start r
      else
        match nat_of_ascii c, r with
        | 194, String c2 r2 =>
            if (nat_of_ascii c2 =? 160)%nat then trim_start r2 else s
        | 225, String c2 (String c3 r3) =>
            if ((nat_of_ascii c2 =? 154) && (nat_of_ascii c3 =? 128))%nat
            then trim_start r3 else s
        | 226, String c2 (String c3 r3) =>
            let n2 := nat_of_ascii c2 in
            let n3 := nat_of_ascii c3 in
            if ((n2 =? 128) &&
                ((128 <=? n3) && (n3 <=? 138) || (n3 =? 168) || (n3 =? 169)
                 || (n3 =? 175))
                || (n2 =? 129) && (n3 =? 159))%nat
            then trim_start r3 else s
        | 227, String c2 (String c3 r3) =>
            if ((nat_of_ascii c2 =? 128) && (nat_of_ascii c3 =? 128))%nat
            then trim_start r3 else s
        | 239, String c2 (String c3 r3) =>
            if ((nat_of_ascii c2 =? 187) && (nat_of_ascii c3 =? 191))%nat
            then trim_start r3 else s
        | _, _ => s
        end
  | EmptyString => s
  end.

(** [parseFloat(s)]: the value of the longest prefix of the trimmed string
    that is a [StrDecimalLiteral], and [NaN] when there is none. *)
Definition parse_unsigned (neg : bool) (s : string) : number :=
  if String.prefix "Infinity" s
  then (if neg then neg_infinity else infinity)
  else
    match unsigned_decimal s with
    | Some (m, e, _) => decimal_to_number neg m e
    | None => NaN
    end.

Definition parseFloat (s : string) : number :=
  match trim_start s with
  | String "+" r => parse_unsigned false r
  | String "-" r => parse_unsigned true r
  | t => parse_unsigned false t
  end.

(** ** Exceptions

    A computation either completes normally or throws. *)

Inductive Error : Type :=
| SyntaxError
| NetworkError (msg : string)
| SqliteError (msg : string).

Inductive completion (A : Type) : Type :=
| Normal (a : A)
| Throw (e : Error).

Arguments Normal {A} a.
Arguments Throw {A} e.

Definition bind {A B} (c : completion A) (k : A -> completion B) : completion B :=
  match c with
  | Normal a => k a
  | Throw e => Throw e
  end.

(** [try { body } catch (error) { handler }] *)
Definition try_catch {A} (body : completion A) (handler : Error -> completion A)
  : completion A :=
  match body with
  | Normal a => Normal a
  | Throw e => handler e
  end.

(** ** JSON values and [JSON.parse]

    Objects keep their properties in creation order; a repeated key
    overwrites the earlier value in place, as property definition does. *)

Inductive Json : Type :=
| JNull
| JBool (b : bool)
| JNumber (n : number)
| JString (s : string)
| JArray (items : list Json)
| JObject (props : list (string * Json)).

Fixpoint set_prop (k : string) (v : Json) (props : list (string * Json))
  : list (string * Json) :=
  match props with
  | [] => [(k, v)]
  | (k', v') :: ps =>
      if String.eqb k k' then (k, v) :: ps else (k', v') :: set_prop k v ps
  end.

Fixpoint get_prop (k : string) (props : list (string * Json)) : option Json :=
  match props with
  | [] => None
  | (k', v') :: ps => if String.eqb k k' then Some v' else get_prop k ps
  end.

(** [ToBoolean] on a parsed value. *)
Definition truthy (v : Json) : bool :=
  match v with
  | JNull => false
  | JBool b => b
  | JNumber n => truthy_number n
  | JString s => truthy_string s
  | JArray _ | JObject _ => true
  end.

Inductive token : Type :=
| TLBrace | TRBrace | TLBracket | TRBracket | TColon | TComma
| TValue (v : Json).

Definition byte (n : Z) : ascii := ascii_of_N (Z.to_N n).

(** The UTF-8 encoding of a code point (a lone surrogate is encoded like any
    other three-byte code point). *)
Definition utf8 (cp : Z) : list ascii :=
  if (cp <? 128)%Z then [byte cp]
  else if (cp <? 2048)%Z then [byte (192 + cp / 64); byte (128 + cp mod 64)]
  else if (cp <? 65536)%Z then
    [byte (224 + cp / 4096); byte (128 + (cp / 64) mod 64); byte (128 + cp mod 64)]
  else
    [byte (240 + cp / 262144); byte (128 + (cp / 4096) mod 64);
     byte (128 + (cp / 64) mod 64); byte (128 + cp mod 64)].

Definition is_high_surrogate (u : Z) : bool := ((55296 <=? u) && (u <=? 56319))%Z.
Definition is_low_surrogate (u : Z) : bool := ((56320 <=? u) && (u <=? 57343))%Z.

(** String literals are built in reverse; [hi] is a high surrogate read from
    a [\u] escape that may still be completed by a low one. *)
Definition flush (hi : option Z) (buf : list ascii) : list ascii :=
  match hi with
  | Some h => rev (utf8 h) ++ buf
  | None => buf
  end.

Definition add_unit (u : Z) (buf : list ascii) (hi : option Z)
  : list ascii * option Z :=
  if is_high_surrogate u then (flush hi buf, Some u)
  else if is_low_surrogate u then
    match hi with
    | Some h =>
        (rev (utf8 (65536 + (h - 55296) * 1024 + (u - 56320))%Z) ++ buf, None)
    | None => (rev (utf8 u) ++ buf, None)
    end
  else (rev (utf8 u) ++ flush hi buf, None).

Definition string_of_rev (buf : list ascii) : string :=
  string_of_list_ascii (rev buf).

Definition hex_value (c : ascii) : option Z :=
  let n := nat_of_ascii c in
  if ((48 <=? n) && (n <=? 57))%nat then Some (Z.of_nat (n - 48))
  else if ((65 <=? n) && (n <=? 70))%nat then Some (Z.of_nat (n - 55))
  else if ((97 <=? n) && (n <=? 102))%nat then Some (Z.of_nat (n - 87))
  else None.

Definition is_json_space (c : ascii) : bool :=
  let n := nat_of_ascii c in
  ((n =? 9) || (n =? 10) || (n =? 13) || (n =? 32))%nat.

Definition is_number_char (c : ascii) : bool :=
  is_digit c || Ascii.eqb c "+" || Ascii.eqb c "-" || Ascii.eqb c "."
  || Ascii.eqb c "e" || Ascii.eqb c "E".

Definition is_lower (c : ascii) : bool :=
  ((97 <=? nat_of_ascii c) && (nat_of_ascii c <=? 122))%nat.

(** A JSON number: an optional minus sign, an integer part without a
    superfluous leading zero, an optional fraction with at least one digit,
    an optional exponent part; nothing may follow. *)
Definition json_number (s : string) : option number :=
  let '(neg, s1) :=
    match s with
    | String "-" r => (true, r)
    | _ => (false, s)
    end in
  let '(ip, ni, r1) := digits s1 0 0 in
  let leading_zero :=
    match s1 with
    | String "0" (String c _) => is_digit c
    | _ => false
    end in
  match ni with
  | O => None
  | S _ =>
      if leading_zero then None
      else
        let frac :=
          match r1 with
          | String "." r1' =>
              let '(fp, nf, r2) := digits r1' ip 0 in
              match nf with
              | O => None
              | S _ => Some (fp, nf, r2)
              end
          | _ => Some (ip, O, r1)
          end in
        match frac with
        | None => None
        | Some (m, nf, r2) =>
            match r2 with
            | EmptyString => Some (decimal_to_number neg m (- Z.of_nat nf))
            | String _ _ =>
                match exponent_part r2 with
                | (ex, EmptyString) =>
                    Some (decimal_to_number neg m (ex - Z.of_nat nf))
                | (_, String _ _) => None
                end
            end
        end
  end.

Definition json_word (s : string) : option Json :=
  if String.eqb s "true" then Some (JBool true)
  else if String.eqb s "false" then Some (JBool false)
  else if String.eqb s "null" then Some JNull
  else None.

Inductive lex_mode : Type :=
| LIdle
| LNumber (rev_chars : list ascii)
| LWord (rev_chars : list ascii)
| LString (buf : list ascii) (hi : option Z)
| LEscape (buf : list ascii) (hi : option Z)
| LUnicode (buf : list ascii) (hi : option Z) (n : nat) (acc : Z).

Definition lex_idle (c : ascii) : option (lex_mode * list token) :=
  if is_json_space c then Some (LIdle, [])
  else if Ascii.eqb c "{" then Some (LIdle, [TLBrace])
  else if Ascii.eqb c "}" then Some (LIdle, [TRBrace])
  else if Ascii.eqb c "[" then Some (LIdle, [TLBracket])
  else if Ascii.eqb c "]" then Some (LIdle, [TRBracket])
  else if Ascii.eqb c ":" then Some (LIdle, [TColon])
  else if Ascii.eqb c "," then Some (LIdle, [TComma])
  else if Ascii.eqb c "034" then Some (LString [] None, [])
  else if is_digit c || Ascii.eqb c "-" then Some (LNumber [c], [])
  else if is_lower c then Some (LWord [c], [])
  else None.

Definition close_number (rev_chars : list ascii) : option token :=
  option_map (fun n => TValue (JNumber n)) (json_number (string_of_rev rev_chars)).

Definition close_word (rev_chars : list ascii) : option token :=
  option_map TValue (json_word (string_of_rev rev_chars)).

(** After a closed token [t], the character [c] is read afresh. *)
Definition then_idle (t : option token) (c : ascii)
  : option (lex_mode * list token) :=
  match t, lex_idle c with
  | Some t, Some (m, ts) => Some (m, t :: ts)
  | _, _ => None
  end.

Definition simple_escape (c : ascii) : option ascii :=
  if Ascii.eqb c "034" then Some c
  else if Ascii.eqb c "\" then Some c
  else if Ascii.eqb c "/" then Some c
  else if Ascii.eqb c "b" then Some "008"%char
  else if Ascii.eqb c "f" then Some "012"%char
  else if Ascii.eqb c "n" then Some "010"%char
  else if Ascii.eqb c "r" then Some "013"%char
  else if Ascii.eqb c "t" then Some "009"%char
  else None.

Definition lex_char (m : lex_mode) (c : ascii) : option (lex_mode * list token) :=
  match m with
  | LIdle => lex_idle c
  | LNumber cs =>
      if is_number_char c then Some (LNumber (c :: cs), [])
      else then_idle (close_number cs) c
  | LWord cs =>
      if is_lower c then Some (LWord (c :: cs), [])
      else then_idle (close_word cs) c
  | LString buf hi =>
      if Ascii.eqb c "034"
      then Some (LIdle, [TValue (JString (string_of_rev (flush hi buf)))])
      else if Ascii.eqb c "\" then Some (LEscape buf hi, [])
      else if (nat_of_ascii c <? 32)%nat then None
      else Some (LString (c :: flush hi buf) None, [])
  | LEscape buf hi =>
      if Ascii.eqb c "u" then Some (LUnicode buf hi 0 0, [])
      else
        match simple_escape c with
        | Some b => Some (LString (b :: flush hi buf) None, [])
        | None => None
        end
  | LUnicode buf hi n acc =>
      match hex_value c with
      | Some d =>
          let acc' := (acc * 16 + d)%Z in
          if (n =? 3)%nat
          then let '(buf', hi') := add_unit acc' buf hi in
               Some (LString buf' hi', [])
          else Some (LUnicode buf hi (S n) acc', [])
      | None => None
      end
  end.

Definition lex_end (m : lex_mode) : option (list token) :=
  match m with
  | LIdle => Some []
  | LNumber cs => option_map (fun t => [t]) (close_number cs)
  | LWord cs => option_map (fun t => [t]) (close_word cs)
  | LString _ _ | LEscape _ _ | LUnicode _ _ _ _ => None
  end.

Fixpoint lex (m : lex_mode) (s : string) : option (list token) :=
  match s with
  | EmptyString => lex_end m
  | String c r =>
      match lex_char m c with
      | Some (m', ts) => option_map (app ts) (lex m' r)
      | None => None
      end
  end.

(** The parser is a pushdown automaton over the tokens. *)
Inductive frame : Type :=
| FArray (rev_items : list Json)
| FObject (props : list (string * Json))
| FMember (props : list (string * Json)) (key : string).

Inductive expect : Type :=
| EValue
| EValueOrClose
| EKeyOrClose
| EKey
| EColon (key : string)
| ECommaOrClose
| EEnd (v : Json).

Definition push_value (v : Json) (stack : list frame)
  : option (list frame * expect) :=
  match stack with
  | [] => Some ([], EEnd v)
  | FArray items :: st => Some (FArray (v :: items) :: st, ECommaOrClose)
  | FMember props k :: st => Some (FObject (set_prop k v props) :: st, ECommaOrClose)
  | FObject _ :: _ => None
  end.

Definition open_value (t : token) (stack : list frame)
  : option (list frame * expect) :=
  match t with
  | TValue v => push_value v stack
  | TLBracket => Some (FArray [] :: stack, EValueOrClose)
  | TLBrace => Some (FObject [] :: stack, EKeyOrClose)
  | _ => None
  end.

Definition parse_token (stack : list frame) (e : expect) (t : token)
  : option (list frame * expect) :=
  match e with
  | EValue => open_value t stack
  | EValueOrClose =>
      match t, stack with
      | TRBracket, FArray items :: st => push_value (JArray (rev items)) st
      | _, _ => open_value t stack
      end
  | EKeyOrClose =>
      match t, stack with
      | TRBrace, FObject props :: st => push_value (JObject props) st
      | TValue (JString k), _ => Some (stack, EColon k)
      | _, _ => None
      end
  | EKey =>
      match t with
      | TValue (JString k) => Some (stack, EColon k)
      | _ => None
      end
  | EColon k =>
      match t, stack with
      | TColon, FObject props :: st => Some (FMember props k :: st, EValue)
      | _, _ => None
      end
  | ECommaOrClose =>
      match t, stack with
      | TComma, FArray _ :: _ => Some (stack, EValue)
      | TComma, FObject _ :: _ => Some (stack, EKey)
      | TRBracket, FArray items :: st => push_value (JArray (rev items)) st
      | TRBrace, FObject props :: st => push_value (JObject props) st
      | _, _ => None
      end
  | EEnd _ => None
  end.

Fixpoint parse_tokens (stack : list frame) (e : expect) (ts : list token)
  : option Json :=
  match ts with
  | [] =>
      match e with
      | EEnd v => Some v
      | _ => None
      end
  | t :: ts' =>
      match parse_token stack e t with
      | Some (stack', e') => parse_tokens stack' e' ts'
      | None => None
      end
  end.

(** [JSON.parse(text)]: the parsed value, or a thrown [SyntaxError]. *)
Definition JSON_parse (text : string) : completion Json :=
  match lex LIdle text with
  | Some ts =>
      match parse_tokens [] EValue ts with
      | Some v => Normal v
      | None => Throw SyntaxError
      end
  | None => Throw SyntaxError
  end.

(** [s.split(',')] *)
Fixpoint split_comma (s : string) (cur : list ascii) : list string :=
  match s with
  | EmptyString => [string_of_rev cur]
  | String c r =>
      if Ascii.eqb c "," then string_of_rev cur :: split_comma r []
      else split_comma r (c :: cur)
  end.

(** [Array.prototype.slice(0, n)], [reverse] and [map] on a fresh copy. *)
Definition slice0 {A} (n : nat) (l : list A) : list A := firstn n l.

(** [Array.prototype.reduce(f, init)]: a left fold, in index order. *)
Definition reduce {A B} (f : B -> A -> B) (init : B) (l : list A) : B :=
  fold_left f l init.

End JS.

(* ================================================================== *)
(** * types.ts and the ExtractedReceipt interface *)
(* ================================================================== *)

Module Types.

(** [ExtractedReceipt] of services/gemini.ts.  An optional property that is
    [undefined] or [null] is [None]. *)
Record ExtractedReceipt : Type := mkExtracted {
  x_merchant : string;
  x_date : string;
  x_amount : JS.number;
  x_tax : option JS.number;
  x_currency : string;
  x_category : string
}.

(** [Receipt] of types.ts, with the [tax] property the views read and the
    server stores. *)
Record Receipt : Type := mkReceipt {
  id : option Z;
  merchant : string;
  date : string;
  amount : JS.number;
  tax : option JS.number;
  currency : string;
  category : string;
  image_url : option string;
  created_at : option string
}.

Inductive AppState : Type := SCANNING | REVIEW_DETAIL | LIST.

Definition CATEGORIES : list string :=
  ["Food & Drinks"; "Travel"; "Supplies"; "Entertainment"; "Other"].

Definition CURRENCIES : list (string * string) :=
  [("USD", "$"); ("EUR", "€"); ("GBP", "£"); ("JPY", "¥");
   ("CAD", "C$"); ("AUD", "A$")].

End Types.

(* ================================================================== *)
(** * services/gemini.ts: the extraction client *)
(* ================================================================== *)

Module Gemini.
Import JS.

(** What the code reads of the model's response: [response.text], which is
    [undefined] ([None]) or a string. *)
Record GenerateContentResponse : Type := mkResponse {
  text : option string
}.

(** The awaited [ai.models.generateContent] call, as a function of the inline
    image data it is sent: the promise resolves with a response or rejects. *)
Definition GenerateContent : Type := string -> completion GenerateContentResponse.

(** [base64Image.split(',')[1] || base64Image] *)
Definition inline_data (base64Image : string) : string :=
  match split_comma base64Image [] with
  | _ :: payload :: _ => if truthy_string payload then payload else base64Image
  | _ => base64Image
  end.

(** [extractReceiptData]; [JNull] is the [null] it returns. *)
Definition extractReceiptData (generateContent : GenerateContent)
    (base64Image : string) : completion Json :=
  try_catch
    (bind (generateContent (inline_data base64Image)) (fun response =>
       match text response with
       | None => Normal JNull
       | Some t =>
           if negb (truthy_string t) then Normal JNull
           else JSON_parse t
       end))
    (fun error => Normal JNull).

(** The [responseSchema] sent with the request. *)
Inductive SchemaType : Type := STRING | NUMBER.

Definition properties : list (string * SchemaType) :=
  [("merchant", STRING); ("date", STRING); ("amount", NUMBER);
   ("tax", NUMBER); ("currency", STRING); ("category", STRING)].

Definition required : list string :=
  ["merchant"; "date"; "amount"; "currency"; "category"].

Definition has_type (ty : SchemaType) (v : Json) : bool :=
  match ty, v with
  | STRING, JString _ => true
  | NUMBER, JNumber _ => true
  | _, _ => false
  end.

(** A value conforms to the schema when it is an object, every required
    property is there, and every declared property that is there has the
    declared type. *)
Definition conforms (v : Json) : bool :=
  match v with
  | JObject props =>
      forallb (fun k => match get_prop k props with
                        | Some _ => true
                        | None => false
                        end) required
      && forallb (fun '(k, ty) => match get_prop k props with
                                  | Some x => has_type ty x
                                  | None => true
                                  end) properties
  | _ => false
  end.

(** [JSON.parse(text) as ExtractedReceipt]: the cast checks nothing at run
    time.  This is the record the typed code sees when the properties are
    there with their types; a [tax] that is missing or [null] is absent.
    [None] says that the value is no such record, not that it is [null]:
    the form is then still seeded with the value itself (see
    [Review.initialFormValue]). *)
Definition as_ExtractedReceipt (v : Json) : option Types.ExtractedReceipt :=
  match v with
  | JObject props =>
      match get_prop "merchant" props, get_prop "date" props,
            get_prop "amount" props, get_prop "currency" props,
            get_prop "category" props with
      | Some (JString m), Some (JString d), Some (JNumber a),
        Some (JString c), Some (JString cat) =>
          Some (Types.mkExtracted m d a
                  (match get_prop "tax" props with
                   | Some (JNumber t) => Some t
                   | _ => None
                   end)
                  c cat)
      | _, _, _, _, _ => None
      end
  | _ => None
  end.

(** The string holds no comma. *)
Definition no_comma (s : string) : bool :=
  forallb (fun c => negb (Ascii.eqb c ",")) (list_ascii_of_string s).

End Gemini.

(* ================================================================== *)
(** * server.ts: the receipts table and its handlers *)
(* ================================================================== *)

Module Server.
Import JS.

(** A row of the [receipts] table.  [tax] and [image_url] are the nullable
    columns. *)
Record Row : Type := mkRow {
  id : Z;
  merchant : string;
  date : string;
  amount : number;
  tax : option number;
  currency : string;
  category : string;
  image_url : option string;
  created_at : string
}.

(** The table: its rows in rowid order (the order of insertion) and the
    largest rowid ever handed out, which AUTOINCREMENT keeps. *)
Record Db : Type := mkDb {
  rows : list Row;
  seq : Z
}.

Definition empty_db : Db := mkDb [] 0.

(** [DEFAULT 'USD'] of the [currency] column. *)
Definition currency_column_default : string := "USD".

Definition max_rowid : Z := 9223372036854775807.

(** A number bound to a REAL column, as the column gives it back: SQLite
    stores NaN as NULL, and a zero of either sign reads back as 0. *)
Definition bind_real (x : option number) : option number :=
  match x with
  | Some v =>
      if PrimFloat.is_nan v then None
      else if PrimFloat.is_zero v then Some 0%float
      else Some v
  | None => None
  end.

(** [INSERT INTO receipts (merchant, date, amount, tax, currency, category,
    image_url) VALUES (?, ?, ?, ?, ?, ?, ?)] with [undefined] and [null]
    bound as NULL.  All seven columns are named, so no column default is
    used; a NULL in a NOT NULL column fails the statement, which then leaves
    the table as it was.  [now] is CURRENT_TIMESTAMP. *)
Definition insert_receipt (db : Db) (now : string)
    (merchant date : option string) (amount tax : option number)
    (currency category image_url : option string) : completion (Db * Z) :=
  match merchant, date, bind_real amount, currency, category with
  | Some m, Some d, Some a, Some c, Some cat =>
      if (seq db <? max_rowid)%Z then
        let rowid := (seq db + 1)%Z in
        Normal (mkDb (rows db ++ [mkRow rowid m d a (bind_real tax) c cat image_url now])
                     rowid,
                rowid)
      else Throw (SqliteError "database or disk is full")
  | _, _, _, _, _ => Throw (SqliteError "NOT NULL constraint failed")
  end.

(** [req.body] of POST /api/receipts after destructuring: a property that is
    missing or [null] is [None]. *)
Record Body : Type := mkBody {
  b_merchant : option string;
  b_date : option string;
  b_amount : option number;
  b_tax : option number;
  b_currency : option string;
  b_category : option string;
  b_image_url : option string
}.

(** [currency || 'USD'] *)
Definition currency_or_USD (currency : option string) : option string :=
  match currency with
  | Some c => if truthy_string c then Some c else Some "USD"
  | None => Some "USD"
  end.

Inductive Payload : Type :=
| PReceipts (receipts : list Row)
| PId (id : Z)
| PError (error : string).

Record Response : Type := mkHttp {
  status : Z;
  payload : Payload
}.

(** [app.post("/api/receipts", ...)]: the statement runs inside [try]; the
    [catch] answers 500. *)
Definition post_receipts (db : Db) (now : string) (body : Body) : Db * Response :=
  match insert_receipt db now (b_merchant body) (b_date body) (b_amount body)
          (b_tax body) (currency_or_USD (b_currency body)) (b_category body)
          (b_image_url body)
  with
  | Normal (db', rowid) => (db', mkHttp 200 (PId rowid))
  | Throw error => (db, mkHttp 500 (PError "Failed to save receipt"))
  end.

(** The ORDER BY term [date DESC] under the column's BINARY collation:
    [earlier] may precede [later] when its date is bytewise greater or
    equal. *)
Definition date_desc (earlier later : Row) : Prop :=
  String.leb (date later) (date earlier) = true.

(** What the statement [SELECT * FROM receipts ORDER BY date DESC] promises of
    its result: every row of the table, arranged so that dates descend.
    The statement names no further sort key. *)
Definition select_result (db : Db) (result : list Row) : Prop :=
  Permutation (rows db) result /\ StronglySorted date_desc result.

(** One evaluation of the statement: a scan of the table in rowid order
    feeding a stable sort. *)
Fixpoint sorter_insert (r : Row) (sorted : list Row) : list Row :=
  match sorted with
  | [] => [r]
  | x :: rest =>
      if String.ltb (date x) (date r) then r :: sorted
      else x :: sorter_insert r rest
  end.

Definition select_order_by_date_desc (db : Db) : list Row :=
  fold_left (fun sorted r => sorter_insert r sorted) (rows db) [].

(** [app.get("/api/receipts", ...)] *)
Definition get_receipts (db : Db) : Response :=
  mkHttp 200 (PReceipts (select_order_by_date_desc db)).

(** The invariants the specification states for a stored record. *)
Definition amount_nonneg (r : Row) : bool := PrimFloat.leb 0 (amount r).

Definition tax_within_amount (r : Row) : bool :=
  match tax r with
  | Some t => PrimFloat.leb t (amount r)
  | None => true
  end.

Definition merchant_nonempty (r : Row) : bool := truthy_string (merchant r).

Definition record_invariant (r : Row) : bool :=
  amount_nonneg r && tax_within_amount r && merchant_nonempty r.

(** Rows with the same date come newest first: the later insertion (the
    larger rowid) precedes. *)
Fixpoint ties_newest_first (result : list Row) : Prop :=
  match result with
  | [] => True
  | r :: rest =>
      Forall (fun r' => date r' = date r -> (id r' < id r)%Z) rest
      /\ ties_newest_first rest
  end.

(** [DELETE FROM receipts WHERE id = ?] with an integer for the parameter.
    The AUTOINCREMENT counter is not touched. *)
Definition delete_where_id (db : Db) (rowid : Z) : Db :=
  mkDb (filter (fun r => negb (id r =? rowid)%Z) (rows db)) (seq db).

Record DeleteResponse : Type := mkDeleted {
  d_status : Z;
  d_success : bool
}.

(** [app.delete("/api/receipts/:id", ...)] for a path that ends in the
    decimal numeral of the integer [rowid], as [deleteReceipt] writes it
    from a record's id; the statement compares the column with the value of
    the numeral. *)
Definition delete_receipts (db : Db) (rowid : Z) : Db * DeleteResponse :=
  (delete_where_id db rowid, mkDeleted 200 true).

(** The requests of the API and what they answer, one after the other
    against the same table. *)
Inductive Request : Type :=
| POST (now : string) (body : Body)
| DELETE (rowid : Z)
| GET.

Inductive Reply : Type :=
| Created (r : Response)
| Deleted (r : DeleteResponse)
| Listed (r : Response).

Definition serve (db : Db) (req : Request) : Db * Reply :=
  match req with
  | POST now body =>
      let '(db', r) := post_receipts db now body in (db', Created r)
  | DELETE rowid =>
      let '(db', r) := delete_receipts db rowid in (db', Deleted r)
  | GET => (db, Listed (get_receipts db))
  end.

Fixpoint serve_all (db : Db) (reqs : list Request) : Db * list Reply :=
  match reqs with
  | [] => (db, [])
  | req :: reqs' =>
      let '(db', reply) := serve db req in
      let '(db'', replies) := serve_all db' reqs' in
      (db'', reply :: replies)
  end.

(** The ids that the creates of a run have answered with, in order. *)
Fixpoint issued (replies : list Reply) : list Z :=
  match replies with
  | [] => []
  | Created (mkHttp _ (PId rowid)) :: rest => rowid :: issued rest
  | _ :: rest => issued rest
  end.

(** The rows are in ascending order of id, and no id exceeds the counter. *)
Definition ids_ascending (db : Db) : Prop :=
  StronglySorted Z.lt (map id (rows db))
  /\ Forall (fun r => (id r <= seq db)%Z) (rows db).

(** What every row that a create has stored satisfies. *)
Definition stored_ok (r : Row) : Prop :=
  currency r <> ""
  /\ PrimFloat.is_nan (amount r) = false
  /\ match tax r with
     | Some t => PrimFloat.is_nan t = false
     | None => True
     end.

End Server.

(* ================================================================== *)
(** * ReviewDetailView: the review form *)
(* ================================================================== *)

Module Review.
Import JS Types.

(** The form shown when there is no extraction result; [today] is
    [new Date().toISOString().split('T')[0]]. *)
Definition defaultFormData (today : string) : ExtractedReceipt :=
  mkExtracted "" today 0%float (Some 0%float) "INR" "Other".

(** [useState<ExtractedReceipt>(initialData || { ... })] *)
Definition initialFormData (today : string)
    (initialData : option ExtractedReceipt) : ExtractedReceipt :=
  match initialData with
  | Some x => x
  | None => defaultFormData today
  end.

(** The [onChange] handlers; [value] is [e.target.value]. *)
Definition onChangeMerchant (formData : ExtractedReceipt) (value : string) :=
  mkExtracted value (x_date formData) (x_amount formData) (x_tax formData)
              (x_currency formData) (x_category formData).

Definition onChangeDate (formData : ExtractedReceipt) (value : string) :=
  mkExtracted (x_merchant formData) value (x_amount formData) (x_tax formData)
              (x_currency formData) (x_category formData).

Definition onChangeCurrency (formData : ExtractedReceipt) (value : string) :=
  mkExtracted (x_merchant formData) (x_date formData) (x_amount formData)
              (x_tax formData) value (x_category formData).

(** [{ ...formData, amount: parseFloat(e.target.value) }] *)
Definition onChangeAmount (formData : ExtractedReceipt) (value : string) :=
  mkExtracted (x_merchant formData) (x_date formData) (parseFloat value)
              (x_tax formData) (x_currency formData) (x_category formData).

(** [{ ...formData, tax: parseFloat(e.target.value) || 0 }] *)
Definition onChangeTax (formData : ExtractedReceipt) (value : string) :=
  mkExtracted (x_merchant formData) (x_date formData) (x_amount formData)
              (Some (or_number (parseFloat value) 0%float))
              (x_currency formData) (x_category formData).

Definition onChangeCategory (formData : ExtractedReceipt) (value : string) :=
  mkExtracted (x_merchant formData) (x_date formData) (x_amount formData)
              (x_tax formData) (x_currency formData) value.

(** The argument of [onConfirm]: [{ ...formData, image_url: image }] *)
Definition confirmedReceipt (formData : ExtractedReceipt) (image : string)
  : Receipt :=
  mkReceipt None (x_merchant formData) (x_date formData) (x_amount formData)
            (x_tax formData) (x_currency formData) (x_category formData)
            (Some image) None.

(** [JSON.stringify] of a number followed by the server's JSON parsing: a
    number that is not finite arrives as [null], and [-0] as [0]. *)
Definition number_on_wire (x : number) : option number :=
  if PrimFloat.is_nan x || PrimFloat.is_infinity x then None
  else if PrimFloat.is_zero x then Some 0%float
  else Some x.

(** The request body [saveReceipt] posts: [JSON.stringify(receipt)] as the
    server reads it, for a receipt that has its typed properties.  What is
    posted for any form is [posted_body]. *)
Definition request_body (receipt : Receipt) : Server.Body :=
  Server.mkBody (Some (merchant receipt)) (Some (date receipt))
                (number_on_wire (amount receipt))
                (match tax receipt with
                 | Some t => number_on_wire t
                 | None => None
                 end)
                (Some (currency receipt)) (Some (category receipt))
                (image_url receipt).

(** The edits of the form, and a sequence of them. *)
Inductive Edit : Type :=
| EditMerchant (value : string)
| EditDate (value : string)
| EditCurrency (value : string)
| EditAmount (value : string)
| EditTax (value : string)
| EditCategory (value : string).

Definition edit (formData : ExtractedReceipt) (e : Edit) : ExtractedReceipt :=
  match e with
  | EditMerchant v => onChangeMerchant formData v
  | EditDate v => onChangeDate formData v
  | EditCurrency v => onChangeCurrency formData v
  | EditAmount v => onChangeAmount formData v
  | EditTax v => onChangeTax formData v
  | EditCategory v => onChangeCategory formData v
  end.

Definition edits (formData : ExtractedReceipt) (es : list Edit) : ExtractedReceipt :=
  fold_left edit es formData.

Definition is_finite (x : number) : bool :=
  negb (PrimFloat.is_nan x || PrimFloat.is_infinity x).

(** The tax of the form is absent or a number other than [NaN]. *)
Definition tax_not_NaN (formData : ExtractedReceipt) : Prop :=
  match x_tax formData with
  | Some t => PrimFloat.is_nan t = false
  | None => True
  end.

(** ** The form as the run time holds it

    [formData] is the value that [initialData || { ... }] gave, or an object
    made from it by the edits; nothing checks that it has the properties of
    [ExtractedReceipt]. *)

(** [formData.k] for the property names the code reads: an own property of
    an object; a parsed array, string, number or boolean has none of
    them. *)
Definition field (k : string) (formData : Json) : option Json :=
  match formData with
  | JObject props => get_prop k props
  | _ => None
  end.

Definition defaultFormValue (today : string) : Json :=
  JObject [("merchant", JString ""); ("date", JString today);
           ("amount", JNumber 0%float); ("tax", JNumber 0%float);
           ("currency", JString "INR"); ("category", JString "Other")].

(** [initialData || { ... }] on what extraction returned. *)
Definition initialFormValue (today : string) (initialData : Json) : Json :=
  if truthy initialData then initialData else defaultFormValue today.

(** An extraction result as the object it is. *)
Definition to_object (x : ExtractedReceipt) : Json :=
  JObject ([("merchant", JString (x_merchant x)); ("date", JString (x_date x));
            ("amount", JNumber (x_amount x))]
           ++ match x_tax x with
              | Some t => [("tax", JNumber t)]
              | None => []
              end
           ++ [("currency", JString (x_currency x));
               ("category", JString (x_category x))]).

(** A property of [{ ...formData, image_url: image }] as the handler reads
    it after [JSON.stringify] and the body parser: missing and [null] are
    [Some None].  The outer [None] is a value of another type than the
    column's, which [Server.Body] does not hold. *)
Definition posted_string (v : option Json) : option (option string) :=
  match v with
  | None | Some JNull => Some None
  | Some (JString s) => Some (Some s)
  | Some _ => None
  end.

Definition posted_number (v : option Json) : option (option number) :=
  match v with
  | None | Some JNull => Some None
  | Some (JNumber x) => Some (number_on_wire x)
  | Some _ => None
  end.

(** The body that confirming the form [formData] posts. *)
Definition posted_body (formData : Json) (image : string) : option Server.Body :=
  match posted_string (field "merchant" formData),
        posted_string (field "date" formData),
        posted_number (field "amount" formData),
        posted_number (field "tax" formData),
        posted_string (field "currency" formData),
        posted_string (field "category" formData) with
  | Some m, Some d, Some a, Some t, Some c, Some cat =>
      Some (Server.mkBody m d a t c cat (Some image))
  | _, _, _, _, _, _ => None
  end.

End Review.

(* ================================================================== *)
(** * ReceiptListView: the report aggregates *)
(* ================================================================== *)

Module Report.
Import Types.
Local Open Scope float_scope.

(** [receipts.reduce((acc, r) => acc + r.amount, 0)] *)
Definition total (receipts : list Receipt) : JS.number :=
  JS.reduce (fun acc r => acc + amount r) 0 receipts.

(** The reducer of [totalTax]: the stored tax when there is one, otherwise
    the 7% inclusive VAT share of the amount. *)
Definition totalTax_step (acc : JS.number) (r : Receipt) : JS.number :=
  match tax r with
  | Some t => acc + t
  | None => acc + (amount r - (amount r / 1.07))
  end.

Definition totalTax (receipts : list Receipt) : JS.number :=
  JS.reduce totalTax_step 0 receipts.

(** [receipts.length > 0 ? total / receipts.length : 0] *)
Definition avg (receipts : list Receipt) : JS.number :=
  if (0 <? List.length receipts)%nat
  then total receipts / JS.of_nat (List.length receipts)
  else 0.

Record ChartEntry : Type := mkEntry {
  name : string;
  entry_amount : JS.number
}.

(** [receipts.slice(0, 5).reverse().map(r => ({name: r.merchant, amount: r.amount}))] *)
Definition chartData (receipts : list Receipt) : list ChartEntry :=
  map (fun r => mkEntry (merchant r) (amount r))
      (rev (JS.slice0 5 receipts)).

(** The spec's vocabulary, to compare the code with. *)
Definition taxFor (r : Receipt) : JS.number :=
  match tax r with
  | Some t => t
  | None => amount r - amount r / 1.07
  end.

(** Summation in list order, starting from 0, as [reduce] does. *)
Definition sum (xs : list JS.number) : JS.number :=
  fold_left PrimFloat.add xs 0.

(** [CURRENCIES.find(c => c.code === code)?.symbol || '$'] *)
Definition getCurrencySymbol (code : string) : string :=
  match find (fun c => String.eqb (fst c) code) CURRENCIES with
  | Some c => if JS.truthy_string (snd c) then snd c else "$"
  | None => "$"
  end.

(** [receipts[0]?.currency || 'INR'], the code the aggregates are shown
    with. *)
Definition report_currency (receipts : list Receipt) : string :=
  match receipts with
  | r :: _ => if JS.truthy_string (currency r) then currency r else "INR"
  | [] => "INR"
  end.

End Report.

(* ================================================================== *)
(** * App: the capture session as a state machine *)
(* ================================================================== *)

Module Session.
Import JS Types.

(** [currentScan]: the captured image and what extraction returned. *)
Record Scan : Type := mkScan {
  image : string;
  data : option ExtractedReceipt
}.

(** The component's state variables, followed by the asynchronous work that
    is outstanding:
    - [stream]: a camera stream is attached to the video element;
    - [interval]: the progress ticker of [captureImage] is running;
    - [extracting]: [captureImage] is suspended at
      [await extractReceiptData(base64)], holding [base64];
    - [timeout]: the callback given to [setTimeout] has not run yet; it holds
      the scan it will install. *)
Record App : Type := mkApp {
  state : AppState;
  receipts : list Receipt;
  currentScan : option Scan;
  isScanning : bool;
  progress : Z;
  stream : bool;
  interval : bool;
  extracting : option string;
  timeout : option Scan
}.

Definition init : App :=
  mkApp LIST [] None false 0 false false None None.

(** What can happen next: the buttons of the views, and the callbacks the
    runtime delivers. *)
Inductive Event : Type :=
| Add (granted : bool)
| Capture (base64 : string)
| Tick
| Extracted (extracted : option ExtractedReceipt)
| TimeoutFires
| Close
| Retake (granted : bool)
| Saved (fetched : option (list Receipt))
| Fetched (fetched : list Receipt).

Definition is_SCANNING (s : AppState) : bool :=
  match s with SCANNING => true | _ => false end.
Definition is_REVIEW_DETAIL (s : AppState) : bool :=
  match s with REVIEW_DETAIL => true | _ => false end.
Definition is_LIST (s : AppState) : bool :=
  match s with LIST => true | _ => false end.

Definition is_some {A} (o : option A) : bool :=
  match o with Some _ => true | None => false end.

(** One event.  [None] when the event cannot occur: the view that offers the
    button is not rendered, the button is disabled, or no such callback is
    outstanding. *)
Definition step (a : App) (e : Event) : option App :=
  match e with
  | Add granted =>
      (* onAdd: setState('SCANNING'); startCamera() *)
      if is_LIST (state a) then
        Some (mkApp SCANNING (receipts a) (currentScan a) (isScanning a)
                    (progress a) granted (interval a) (extracting a) (timeout a))
      else None
  | Capture base64 =>
      (* captureImage up to the await.  The button is disabled while
         scanning; the video and canvas refs are set while the scanner view
         is mounted. *)
      if is_SCANNING (state a) && negb (isScanning a) then
        Some (mkApp (state a) (receipts a) (currentScan a) true 10
                    (stream a) true (Some base64) (timeout a))
      else None
  | Tick =>
      (* setProgress(prev => Math.min(prev + 5, 85)) *)
      if interval a then
        Some (mkApp (state a) (receipts a) (currentScan a) (isScanning a)
                    (Z.min (progress a + 5) 85) (stream a) (interval a)
                    (extracting a) (timeout a))
      else None
  | Extracted extracted =>
      (* captureImage resumes: clearInterval; setProgress(100); setTimeout *)
      match extracting a with
      | Some base64 =>
          Some (mkApp (state a) (receipts a) (currentScan a) (isScanning a)
                      100 (stream a) false None
                      (Some (mkScan base64 extracted)))
      | None => None
      end
  | TimeoutFires =>
      (* setCurrentScan; setIsScanning(false); setState('REVIEW_DETAIL');
         stopCamera() *)
      match timeout a with
      | Some scan =>
          Some (mkApp REVIEW_DETAIL (receipts a) (Some scan) false
                      (progress a) false (interval a) (extracting a) None)
      | None => None
      end
  | Close =>
      (* onClose: setState('LIST'); stopCamera() *)
      if is_SCANNING (state a) then
        Some (mkApp LIST (receipts a) (currentScan a) (isScanning a)
                    (progress a) false (interval a) (extracting a) (timeout a))
      else None
  | Retake granted =>
      (* handleRetake; the review view is rendered only with a scan *)
      if is_REVIEW_DETAIL (state a) && is_some (currentScan a) then
        Some (mkApp SCANNING (receipts a) None (isScanning a)
                    (progress a) granted (interval a) (extracting a) (timeout a))
      else None
  | Saved fetched =>
      (* saveReceipt with res.ok: await fetchReceipts(); setState('LIST') *)
      if is_REVIEW_DETAIL (state a) && is_some (currentScan a) then
        Some (mkApp LIST
                    (match fetched with Some l => l | None => receipts a end)
                    (currentScan a) (isScanning a)
                    (progress a) (stream a) (interval a) (extracting a) (timeout a))
      else None
  | Fetched fetched =>
      (* fetchReceipts: setReceipts(data) *)
      Some (mkApp (state a) fetched (currentScan a) (isScanning a)
                  (progress a) (stream a) (interval a) (extracting a) (timeout a))
  end.

(** A sequence of events, from [a]. *)
Fixpoint run (a : App) (es : list Event) : option App :=
  match es with
  | [] => Some a
  | e :: es' =>
      match step a e with
      | Some a' => run a' es'
      | None => None
      end
  end.

(** The review form is on screen, seeded with [x]:
    [state === 'REVIEW_DETAIL' && currentScan] renders [ReviewDetailView]
    with [initialData = currentScan.data]. *)
Definition reviewing (a : App) (x : option ExtractedReceipt) : Prop :=
  state a = REVIEW_DETAIL /\ exists img, currentScan a = Some (mkScan img x).

(** At most one capture is under way: outside scanning nothing is
    outstanding, and the timeout is armed only once extraction is over. *)
Definition single_flight (a : App) : Prop :=
  (isScanning a = false -> extracting a = None /\ timeout a = None)
  /\ (extracting a = None \/ timeout a = None).

(** The states the session can be in: those some sequence of events leads
    to from the initial one. *)
Definition reachable (a : App) : Prop :=
  exists es, run init es = Some a.

Definition is_Capture (e : Event) : bool :=
  match e with Capture _ => true | _ => false end.
Definition is_Extracted (e : Event) : bool :=
  match e with Extracted _ => true | _ => false end.
Definition is_TimeoutFires (e : Event) : bool :=
  match e with TimeoutFires => true | _ => false end.

Definition count (p : Event -> bool) (es : list Event) : nat :=
  List.length (filter p es).

(** 1 when the callback is outstanding, 0 otherwise. *)
Definition pending {A} (o : option A) : nat :=
  match o with Some _ => 1 | None => 0 end.

(** What holds of the state variables and the outstanding work together. *)
Definition coherent (a : App) : Prop :=
  single_flight a
  /\ (isScanning a = true -> extracting a <> None \/ timeout a <> None)
  /\ interval a = is_some (extracting a)
  /\ (0 <= progress a <= 100)%Z
  /\ (interval a = true -> (10 <= progress a <= 85)%Z)
  /\ (state a = REVIEW_DETAIL -> currentScan a <> None /\ isScanning a = false).

End Session.

(* ================================================================== *)
(** * Sample data *)
(* ================================================================== *)

Module Samples.
Import JS Types.
Local Open Scope float_scope.

Definition cafe_luna : Receipt :=
  mkReceipt (Some 1%Z) "Cafe Luna" "2024-03-01" 42.5 None "USD"
            "Food & Drinks" None None.

Definition book_shop : Receipt :=
  mkReceipt (Some 2%Z) "Book Shop" "2024-02-27" 20 (Some 1.5) "USD"
            "Supplies" None None.

Definition receipt_of (n : Z) (m : string) (a : number) : Receipt :=
  mkReceipt (Some n) m "2024-03-01" a None "USD" "Other" None None.

Definition seven_receipts : list Receipt :=
  [receipt_of 7 "G" 70; receipt_of 6 "F" 60; receipt_of 5 "E" 50;
   receipt_of 4 "D" 40; receipt_of 3 "C" 30; receipt_of 2 "B" 20;
   receipt_of 1 "A" 10].

(** What extraction returns for the Cafe Luna receipt. *)
Definition cafe_luna_extracted : ExtractedReceipt :=
  mkExtracted "Cafe Luna" "2024-03-01" 42.5 None "USD" "Food & Drinks".

Definition jpeg : string := "data:image/jpeg;base64,/9j/4AAQ".

(** JSON texts are written with apostrophes in place of the double
    quotes. *)
Fixpoint json_text (s : string) : string :=
  match s with
  | EmptyString => EmptyString
  | String c r =>
      String (if Ascii.eqb c "'" then "034"%char else c) (json_text r)
  end.

Definition cafe_luna_json : string :=
  json_text
    "{'merchant': 'Cafe Luna', 'date': '2024-03-01', 'amount': 42.50, 'currency': 'USD', 'category': 'Food & Drinks'}".

(** Responses of the extraction model. *)
Definition rejects : Gemini.GenerateContent :=
  fun _ => Throw (NetworkError "fetch failed").

Definition answers (text : option string) : Gemini.GenerateContent :=
  fun _ => Normal (Gemini.mkResponse text).

(** Request bodies of POST /api/receipts. *)
Definition body_without_currency : Server.Body :=
  Server.mkBody (Some "Cafe Luna") (Some "2024-03-01") (Some 42.5) None None
                (Some "Food & Drinks") None.

Definition body_unchecked : Server.Body :=
  Server.mkBody (Some "") (Some "2024-03-01") (Some (-1)) (Some 5)
                (Some "USD") (Some "Other") None.

Definition body_of (merchant date : string) : Server.Body :=
  Server.mkBody (Some merchant) (Some date) (Some 10) None (Some "USD")
                (Some "Other") None.

(** The table after two creates with the same date. *)
Definition two_same_day : Server.Db :=
  fst (Server.post_receipts
         (fst (Server.post_receipts Server.empty_db "2024-03-02 09:00:00"
                 (body_of "First" "2024-03-01")))
         "2024-03-02 09:05:00" (body_of "Second" "2024-03-01")).

(** The session after "add receipt" and "capture", extraction outstanding. *)
Definition capturing : Session.App :=
  Session.mkApp SCANNING [] None true 10 true true (Some jpeg) None.

(** Three receipts of 0.10, 0.20 and 0.30. *)
Definition dime : Receipt := receipt_of 1 "A" 0.1.
Definition two_dimes : Receipt := receipt_of 2 "B" 0.2.
Definition three_dimes : Receipt := receipt_of 3 "C" 0.3.

(** An extraction result that has nothing but an amount. *)
Definition only_amount : Json := JObject [("amount", JNumber 5)].

(** A form whose amount field was cleared. *)
Definition cleared_amount : ExtractedReceipt :=
  Review.onChangeAmount cafe_luna_extracted "".

(** A run of the API: two creates, the first record deleted, a third
    create, the list. *)
Definition api_run : list Server.Request :=
  [Server.POST "2024-03-02 09:00:00" (body_of "First" "2024-03-01");
   Server.POST "2024-03-02 09:05:00" (body_of "Second" "2024-03-02");
   Server.DELETE 1;
   Server.POST "2024-03-02 09:10:00" (body_of "Third" "2024-03-03");
   Server.GET].

Definition body_negative_zero : Server.Body :=
  Server.mkBody (Some "Refund") (Some "2024-03-01") (Some (-0)) (Some (-0))
                (Some "USD") (Some "Other") None.

Definition body_without_merchant : Server.Body :=
  Server.mkBody None (Some "2024-03-01") (Some 42.5) None (Some "USD")
                (Some "Food & Drinks") None.

End Samples.

(* ================================================================== *)
(** * Properties of the report aggregates *)
(* ================================================================== *)

Section ReportFacts.
Import Types Report Samples.
Local Open Scope float_scope.

Remark totalTax_step_taxFor (acc : JS.number) (r : Receipt) :
  totalTax_step acc r = acc + taxFor r.
Proof.
  unfold totalTax_step, taxFor. destruct (tax r); reflexivity.
Qed.

Lemma totalTax_from (rs : list Receipt) :
  forall acc,
    fold_left totalTax_step rs acc = fold_left PrimFloat.add (map taxFor rs) acc.
Proof.
  induction rs as [|r rs IH]; intro acc; simpl.
  - reflexivity.
  - rewrite totalTax_step_taxFor. apply IH.
Qed.

(** C1: [totalTax] is the sum, in list order, of [taxFor] over the records;
    [taxFor] is the stored tax of a record that has one, and
    [amount - amount / 1.07] of a record that has none. *)
Theorem totalTax_sum_taxFor :
  (forall r t, tax r = Some t -> taxFor r = t)
  /\ (forall r, tax r = None -> taxFor r = amount r - amount r / 1.07)
  /\ (forall rs, totalTax rs = sum (map taxFor rs)).
Proof.
  repeat split.
  - intros r t H. unfold taxFor. rewrite H. reflexivity.
  - intros r H. unfold taxFor. rewrite H. reflexivity.
  - intro rs. unfold totalTax, sum, JS.reduce. apply totalTax_from.
Qed.

Lemma totalTax_sum_taxFor_witness :
  taxFor book_shop = 1.5
  /\ taxFor cafe_luna = 42.5 - 42.5 / 1.07
  /\ totalTax [cafe_luna; book_shop] = sum [42.5 - 42.5 / 1.07; 1.5].
Proof.
  destruct totalTax_sum_taxFor as (Hsome & Hnone & Hsum).
  split; [| split].
  - apply (Hsome book_shop 1.5). reflexivity.
  - apply (Hnone cafe_luna). reflexivity.
  - apply (Hsum [cafe_luna; book_shop]).
Defined.

(** The scenario of the specification: one record of 42.50 without a stated
    tax is estimated at 2.78 (to the cent). *)
Example totalTax_cafe_luna :
  totalTax [cafe_luna] = 2.7803738317757052
  /\ PrimFloat.ltb 2.775 (totalTax [cafe_luna]) = true
  /\ PrimFloat.ltb (totalTax [cafe_luna]) 2.785 = true.
Proof. vm_compute. repeat split. Qed.

Lemma chartData_short (rs : list Receipt) :
  (List.length rs <= 5)%nat ->
  chartData rs = map (fun r => mkEntry (merchant r) (amount r)) (rev rs).
Proof.
  intro H. unfold chartData, JS.slice0.
  rewrite firstn_all2 by exact H. reflexivity.
Qed.

(** C6: of at least five records [chartData] keeps five entries, the entry
    at position [i] being (merchant, amount) of the record at position
    [4 - i]; of fewer than five records it keeps all, reversed. *)
Theorem chartData_window (rs : list Receipt) :
  ((5 <= List.length rs)%nat ->
     List.length (chartData rs) = 5%nat
     /\ forall i, (i < 5)%nat ->
          nth_error (chartData rs) i
          = option_map (fun r => mkEntry (merchant r) (amount r))
                       (nth_error rs (4 - i)))
  /\ ((List.length rs < 5)%nat ->
        chartData rs = map (fun r => mkEntry (merchant r) (amount r)) (rev rs)).
Proof.
  split.
  - intro H.
    destruct rs as [|r0 [|r1 [|r2 [|r3 [|r4 rest]]]]]; simpl in H; try lia.
    split; [reflexivity|].
    intros i Hi.
    destruct i as [|[|[|[|[|i]]]]]; try lia; reflexivity.
  - intro H. apply chartData_short. lia.
Qed.

Lemma chartData_window_witness :
  List.length (chartData seven_receipts) = 5%nat
  /\ nth_error (chartData seven_receipts) 0 = Some (mkEntry "C" 30)
  /\ chartData [receipt_of 2 "B" 20; receipt_of 1 "A" 10]
     = [mkEntry "A" 10; mkEntry "B" 20].
Proof.
  destruct (chartData_window seven_receipts) as [Hlong _].
  destruct (Hlong ltac:(simpl; lia)) as [Hlen Hnth].
  destruct (chartData_window [receipt_of 2 "B" 20; receipt_of 1 "A" 10])
    as [_ Hshort].
  split; [exact Hlen | split].
  - exact (Hnth 0%nat ltac:(lia)).
  - exact (Hshort ltac:(simpl; lia)).
Defined.

Lemma total_is_sum (rs : list Receipt) : total rs = sum (map amount rs).
Proof.
  unfold total, sum, JS.reduce.
  generalize 0. induction rs as [|r rs IH]; intro acc; simpl.
  - reflexivity.
  - apply IH.
Qed.

(** C10: [total] is the sum of the amounts of the records, in list order;
    [avg] of no records is 0; of a non-empty list it is that sum divided by
    the number of records; of two records of amounts 10 and 20 it is 15. *)
Theorem avg_total_over_count :
  avg [] = 0
  /\ (forall rs, total rs = sum (map amount rs))
  /\ (forall rs, rs <> [] ->
        avg rs = sum (map amount rs) / JS.of_nat (List.length rs))
  /\ (forall r1 r2, amount r1 = 10 -> amount r2 = 20 -> avg [r1; r2] = 15).
Proof.
  split; [reflexivity | split; [exact total_is_sum | split]].
  - intros rs H. rewrite <- total_is_sum.
    destruct rs as [|r rs]; [congruence|]. reflexivity.
  - intros r1 r2 H1 H2.
    unfold avg, total, JS.reduce. simpl. rewrite H1, H2.
    vm_compute. reflexivity.
Qed.

Lemma avg_total_over_count_witness :
  avg [receipt_of 1 "A" 10; receipt_of 2 "B" 20] = 15
  /\ avg seven_receipts = sum [70; 60; 50; 40; 30; 20; 10] / 7
  /\ avg seven_receipts = 40.
Proof.
  destruct avg_total_over_count as (_ & _ & Hdiv & Hex).
  split; [| split].
  - apply (Hex (receipt_of 1 "A" 10) (receipt_of 2 "B" 20)); reflexivity.
  - apply (Hdiv seven_receipts). discriminate.
  - rewrite (Hdiv seven_receipts) by discriminate. vm_compute. reflexivity.
Defined.

End ReportFacts.

(* ================================================================== *)
(** * Properties of the review form *)
(* ================================================================== *)

Section ReviewFacts.
Import Types Review.
Local Open Scope float_scope.

(** C7: seeding the form with an extraction result [X] and confirming
    without edits hands [onConfirm] the fields of [X] unchanged, together
    with the captured image. *)
Theorem confirm_unedited_roundtrip (today : string) (X : ExtractedReceipt)
    (img : string) :
  let r := confirmedReceipt (initialFormData today (Some X)) img in
  merchant r = x_merchant X
  /\ date r = x_date X
  /\ amount r = x_amount X
  /\ tax r = x_tax X
  /\ currency r = x_currency X
  /\ category r = x_category X
  /\ image_url r = Some img.
Proof.
  simpl. repeat split.
Qed.

(** Without an extraction result the form starts from the defaults. *)
Lemma initialFormData_null (today : string) :
  initialFormData today None
  = mkExtracted "" today 0 (Some 0) "INR" "Other".
Proof. reflexivity. Qed.

(** The value [x || 0] is never [NaN]. *)
Lemma or_number_zero_not_NaN (x : JS.number) :
  JS.isNaN (JS.or_number x 0) = false.
Proof.
  unfold JS.or_number, JS.truthy_number, JS.isNaN.
  destruct (PrimFloat.is_nan x) eqn:E; simpl.
  - reflexivity.
  - destruct (PrimFloat.is_zero x); simpl; [reflexivity | exact E].
Qed.

(** The tax handler: input that does not parse is stored as 0, and the tax
    of the form is never [NaN]. *)
Lemma onChangeTax_unparsable (formData : ExtractedReceipt) (value : string) :
  JS.isNaN (JS.parseFloat value) = true ->
  x_tax (onChangeTax formData value) = Some 0.
Proof.
  intro H. simpl. unfold JS.or_number, JS.truthy_number.
  unfold JS.isNaN in H. rewrite H. reflexivity.
Qed.

Lemma onChangeTax_never_NaN (formData : ExtractedReceipt) (value : string) :
  exists t, x_tax (onChangeTax formData value) = Some t /\ JS.isNaN t = false.
Proof.
  eexists. split; [reflexivity | apply or_number_zero_not_NaN].
Qed.

(** The amount handler stores what [parseFloat] returns, [NaN] included. *)
Lemma onChangeAmount_unparsable (formData : ExtractedReceipt) (value : string) :
  JS.isNaN (JS.parseFloat value) = true ->
  JS.isNaN (x_amount (onChangeAmount formData value)) = true.
Proof.
  intro H. exact H.
Qed.

(** C3, at the input that breaks it: clearing the amount field (the value of
    the input is then the empty string) leaves [NaN] in the form, where
    clearing the tax field leaves 0. *)
Theorem onChangeAmount_cleared_is_NaN (formData : ExtractedReceipt) :
  x_amount (onChangeAmount formData "") = JS.NaN
  /\ x_tax (onChangeTax formData "") = Some 0.
Proof.
  split; reflexivity.
Qed.

End ReviewFacts.

(* ================================================================== *)
(** * Properties of the extraction client *)
(* ================================================================== *)

Section GeminiFacts.
Import JS Gemini.

Variable generateContent : GenerateContent.
Variable base64Image : string.

(** The promise of [extractReceiptData] never rejects. *)
Lemma extractReceiptData_never_throws :
  exists v, extractReceiptData generateContent base64Image = Normal v.
Proof.
  unfold extractReceiptData, try_catch, bind.
  destruct (generateContent (inline_data base64Image)) as [response|e].
  - destruct (text response) as [t|]; [| eauto].
    destruct (negb (truthy_string t)); [eauto|].
    destruct (JSON_parse t); eauto.
  - eauto.
Qed.

(** C9, as the code has it: [extractReceiptData] never throws; it returns
    [null] when the call rejects, when the response has no text or an empty
    one, and when the text is not JSON; it returns whatever the text parses
    to otherwise, without checking it against the schema. *)
Theorem extractReceiptData_outcomes :
  (exists v, extractReceiptData generateContent base64Image = Normal v)
  /\ (forall e,
        generateContent (inline_data base64Image) = Throw e ->
        extractReceiptData generateContent base64Image = Normal JNull)
  /\ (forall response,
        generateContent (inline_data base64Image) = Normal response ->
        text response = None \/ text response = Some "" ->
        extractReceiptData generateContent base64Image = Normal JNull)
  /\ (forall response t e,
        generateContent (inline_data base64Image) = Normal response ->
        text response = Some t ->
        JSON_parse t = Throw e ->
        extractReceiptData generateContent base64Image = Normal JNull)
  /\ (forall response t v,
        generateContent (inline_data base64Image) = Normal response ->
        text response = Some t ->
        JSON_parse t = Normal v ->
        extractReceiptData generateContent base64Image = Normal v).
Proof.
  split; [apply extractReceiptData_never_throws|].
  unfold extractReceiptData, try_catch, bind.
  repeat split.
  - intros e H. rewrite H. reflexivity.
  - intros response H [Ht|Ht]; rewrite H, Ht; reflexivity.
  - intros response t e H Ht Hp. rewrite H, Ht.
    destruct (negb (truthy_string t)); [reflexivity|].
    rewrite Hp. reflexivity.
  - intros response t v H Ht Hp. rewrite H, Ht.
    destruct t as [|c t']; [discriminate Hp|].
    simpl. rewrite Hp. reflexivity.
Qed.

End GeminiFacts.

Section GeminiExamples.
Import JS Gemini Samples.

Lemma extractReceiptData_outcomes_witness :
  extractReceiptData rejects jpeg = Normal JNull
  /\ extractReceiptData (answers None) jpeg = Normal JNull
  /\ extractReceiptData (answers (Some "{ merchant")) jpeg = Normal JNull
  /\ extractReceiptData (answers (Some "[1, 2]")) jpeg
     = Normal (JArray [JNumber 1%float; JNumber 2%float]).
Proof.
  destruct (extractReceiptData_outcomes rejects jpeg) as (_ & Hrej & _).
  destruct (extractReceiptData_outcomes (answers None) jpeg)
    as (_ & _ & Hnone & _).
  destruct (extractReceiptData_outcomes (answers (Some "{ merchant")) jpeg)
    as (_ & _ & _ & Hbad & _).
  destruct (extractReceiptData_outcomes (answers (Some "[1, 2]")) jpeg)
    as (_ & _ & _ & _ & Hok).
  split; [| split; [| split]].
  - apply (Hrej (NetworkError "fetch failed")). reflexivity.
  - apply (Hnone (mkResponse None)); [reflexivity | left; reflexivity].
  - apply (Hbad (mkResponse (Some "{ merchant")) "{ merchant" SyntaxError);
      reflexivity.
  - apply (Hok (mkResponse (Some "[1, 2]")) "[1, 2]"); reflexivity.
Defined.

(** The claim of C9 fails on a response that is JSON but not of the schema:
    the empty object is returned as the result, not [null]. *)
Lemma nonconforming_response_is_returned :
  JSON_parse "{}" = Normal (JObject [])
  /\ conforms (JObject []) = false
  /\ extractReceiptData (answers (Some "{}")) jpeg = Normal (JObject [])
  /\ extractReceiptData (answers (Some "{}")) jpeg <> Normal JNull.
Proof.
  repeat split; try reflexivity. discriminate.
Qed.

(** A value of the schema is an object with the typed properties, and it
    is truthy, so it seeds the review form. *)
Lemma conforms_as_ExtractedReceipt (v : Json) :
  conforms v = true ->
  truthy v = true /\ exists x, as_ExtractedReceipt v = Some x.
Proof.
  destruct v as [| | | | |props]; simpl; try discriminate.
  intro H. split; [reflexivity|].
  destruct (get_prop "merchant" props) as [[]|];
    destruct (get_prop "date" props) as [[]|];
    destruct (get_prop "amount" props) as [[]|];
    destruct (get_prop "currency" props) as [[]|];
    destruct (get_prop "category" props) as [[]|];
    simpl in H; try discriminate H;
    try (rewrite ?andb_false_r in H; discriminate H).
  eexists; reflexivity.
Qed.

(** The scenario of the specification, from the response text to the typed
    extraction result. *)
Example extract_cafe_luna :
  exists v,
    extractReceiptData (answers (Some cafe_luna_json)) jpeg = Normal v
    /\ conforms v = true
    /\ as_ExtractedReceipt v = Some cafe_luna_extracted.
Proof.
  eexists. split; [vm_compute; reflexivity|]. split; reflexivity.
Qed.

End GeminiExamples.

(* ================================================================== *)
(** * Properties of the server *)
(* ================================================================== *)

Section OrderFacts.

Remark ascii_compare_refl (a : ascii) : Ascii.compare a a = Eq.
Proof. unfold Ascii.compare. apply N.compare_refl. Qed.

Remark ascii_compare_lt_trans (a b c : ascii) :
  Ascii.compare a b = Lt -> Ascii.compare b c = Lt -> Ascii.compare a c = Lt.
Proof.
  unfold Ascii.compare. rewrite !N.compare_lt_iff. apply N.lt_trans.
Qed.

(** Bytewise comparison of strings is transitive. *)
Lemma string_compare_le_trans (s1 : string) :
  forall s2 s3,
    String.compare s1 s2 <> Gt -> String.compare s2 s3 <> Gt ->
    String.compare s1 s3 <> Gt.
Proof.
  induction s1 as [|a s1 IH]; intros [|b s2] [|c s3]; simpl;
    try congruence.
  destruct (Ascii.compare a b) eqn:Eab; try congruence;
    destruct (Ascii.compare b c) eqn:Ebc; try congruence.
  - apply Ascii.compare_eq_iff in Eab, Ebc. subst.
    rewrite ascii_compare_refl. apply IH.
  - apply Ascii.compare_eq_iff in Eab. subst. rewrite Ebc. congruence.
  - apply Ascii.compare_eq_iff in Ebc. subst. rewrite Eab. congruence.
  - rewrite (ascii_compare_lt_trans _ _ _ Eab Ebc). congruence.
Qed.

Lemma string_leb_trans (s1 s2 s3 : string) :
  String.leb s1 s2 = true -> String.leb s2 s3 = true -> String.leb s1 s3 = true.
Proof.
  unfold String.leb. intros H12 H23.
  assert (H : String.compare s1 s3 <> Gt).
  { apply (string_compare_le_trans s1 s2 s3).
    - destruct (String.compare s1 s2); congruence.
    - destruct (String.compare s2 s3); congruence. }
  destruct (String.compare s1 s3); congruence.
Qed.

Lemma string_ltb_leb (s1 s2 : string) :
  String.ltb s1 s2 = true -> String.leb s1 s2 = true.
Proof.
  unfold String.ltb, String.leb. destruct (String.compare s1 s2); congruence.
Qed.

Lemma string_not_ltb_leb (s1 s2 : string) :
  String.ltb s1 s2 = false -> String.leb s2 s1 = true.
Proof.
  unfold String.ltb, String.leb. rewrite (String.compare_antisym s2 s1).
  destruct (String.compare s1 s2); simpl; congruence.
Qed.

End OrderFacts.

Section ServerFacts.
Import JS Server.

Lemma sorter_insert_perm (r : Row) (sorted : list Row) :
  Permutation (r :: sorted) (sorter_insert r sorted).
Proof.
  induction sorted as [|x rest IH]; simpl.
  - apply Permutation_refl.
  - destruct (String.ltb (date x) (date r)).
    + apply Permutation_refl.
    + apply perm_trans with (x :: r :: rest).
      * apply perm_swap.
      * apply perm_skip. exact IH.
Qed.

Lemma sorter_insert_sorted (r : Row) (sorted : list Row) :
  StronglySorted date_desc sorted ->
  StronglySorted date_desc (sorter_insert r sorted).
Proof.
  induction 1 as [|x rest Hs IH Hx]; simpl.
  - constructor; constructor.
  - destruct (String.ltb (date x) (date r)) eqn:E.
    + constructor.
      * constructor; assumption.
      * constructor.
        -- unfold date_desc. apply string_ltb_leb. exact E.
        -- eapply Forall_impl; [| exact Hx].
           intros y Hy. unfold date_desc in *.
           eapply string_leb_trans; [exact Hy|].
           apply string_ltb_leb. exact E.
    + constructor; [exact IH|].
      apply (Permutation_Forall (sorter_insert_perm r rest)).
      constructor; [| exact Hx].
      unfold date_desc. apply string_not_ltb_leb. exact E.
Qed.

Lemma sorter_fold (table : list Row) :
  forall sorted,
    StronglySorted date_desc sorted ->
    Permutation (table ++ sorted)
                (fold_left (fun s r => sorter_insert r s) table sorted)
    /\ StronglySorted date_desc
         (fold_left (fun s r => sorter_insert r s) table sorted).
Proof.
  induction table as [|r table IH]; intros sorted Hs; simpl.
  - split; [apply Permutation_refl | exact Hs].
  - destruct (IH (sorter_insert r sorted) (sorter_insert_sorted r sorted Hs))
      as [Hp Hs'].
    split; [| exact Hs'].
    eapply perm_trans; [| exact Hp].
    apply perm_trans with (table ++ r :: sorted).
    + apply Permutation_middle.
    + apply Permutation_app_head. apply sorter_insert_perm.
Qed.

(** The scan and stable sort is an evaluation of the statement. *)
Lemma select_order_by_date_desc_result (db : Db) :
  select_result db (select_order_by_date_desc db).
Proof.
  unfold select_result, select_order_by_date_desc.
  destruct (sorter_fold (rows db) [] (SSorted_nil _)) as [Hp Hs].
  rewrite app_nil_r in Hp. split; assumption.
Qed.

(** C8, as the code has it: the list handler answers with every stored row,
    arranged so that the date strings descend bytewise; the statement gives
    no order to rows of equal date. *)
Theorem get_receipts_sorted_by_date (db : Db) :
  exists result,
    get_receipts db = mkHttp 200 (PReceipts result)
    /\ Permutation (rows db) result
    /\ StronglySorted date_desc result.
Proof.
  exists (select_order_by_date_desc db).
  split; [reflexivity | apply select_order_by_date_desc_result].
Qed.

(** The claim of C8 fails on two records of the same date: the statement
    admits the order of insertion, and the scan and sort returns it. *)
Lemma equal_dates_in_insertion_order :
  exists first second,
    rows Samples.two_same_day = [first; second]
    /\ id first = 1%Z /\ id second = 2%Z /\ date first = date second
    /\ select_result Samples.two_same_day [first; second]
    /\ get_receipts Samples.two_same_day
       = mkHttp 200 (PReceipts [first; second])
    /\ ~ ties_newest_first [first; second].
Proof.
  do 2 eexists. split; [reflexivity|].
  split; [reflexivity|]. split; [reflexivity|]. split; [reflexivity|].
  split; [| split].
  - apply (select_order_by_date_desc_result Samples.two_same_day).
  - reflexivity.
  - simpl. intros [H _]. inversion H as [|? ? Hlt _]; subst.
    specialize (Hlt eq_refl). simpl in Hlt. lia.
Qed.

(** Dates are compared as text: of a receipt dated 03/01/2024 and one dated
    12/31/2023, the older comes first. *)
Example text_order_of_dates :
  let db :=
    fst (post_receipts
           (fst (post_receipts empty_db "2024-03-02 09:00:00"
                   (Samples.body_of "Newer" "03/01/2024")))
           "2024-03-02 09:05:00" (Samples.body_of "Older" "12/31/2023")) in
  map merchant (select_order_by_date_desc db) = ["Older"; "Newer"].
Proof. reflexivity. Qed.

(** A failed create leaves the table as it was. *)
Lemma post_receipts_failure_atomic (db : Db) (now : string) (body : Body) :
  forall db' resp,
    post_receipts db now body = (db', resp) ->
    status resp <> 200%Z -> db' = db.
Proof.
  intros db' resp. unfold post_receipts.
  destruct (insert_receipt _ _ _ _ _ _ _ _ _) as [[d rowid]|e];
    intro H; inversion H; subst; simpl; congruence.
Qed.

(** What a successful create has stored. *)
Lemma post_receipts_success (db : Db) (now : string) (body : Body) :
  forall db' rowid,
    post_receipts db now body = (db', mkHttp 200 (PId rowid)) ->
    exists m d a c cat,
      b_merchant body = Some m /\ b_date body = Some d
      /\ bind_real (b_amount body) = Some a
      /\ currency_or_USD (b_currency body) = Some c
      /\ b_category body = Some cat
      /\ rowid = (seq db + 1)%Z
      /\ db' = mkDb (rows db ++ [mkRow rowid m d a (bind_real (b_tax body)) c cat
                                       (b_image_url body) now])
                    rowid.
Proof.
  intros db' rowid. unfold post_receipts, insert_receipt.
  destruct (b_merchant body) as [m|]; [| discriminate].
  destruct (b_date body) as [d|]; [| discriminate].
  destruct (bind_real (b_amount body)) as [a|]; [| discriminate].
  destruct (currency_or_USD (b_currency body)) as [c|]; [| discriminate].
  destruct (b_category body) as [cat|]; [| discriminate].
  destruct (seq db <? max_rowid)%Z; [| discriminate].
  intro H. inversion H; subst.
  exists m, d, a, c, cat. repeat split.
Qed.

(** C4, as the code has it: a create without a currency stores the record
    with currency USD, which is also the default of the column. *)
Theorem post_receipts_currency_fallback (db : Db) (now : string) (body : Body) :
  forall db' rowid,
    b_currency body = None ->
    post_receipts db now body = (db', mkHttp 200 (PId rowid)) ->
    exists r,
      rows db' = rows db ++ [r] /\ id r = rowid
      /\ currency r = "USD" /\ currency r = currency_column_default.
Proof.
  intros db' rowid Hc H.
  destruct (post_receipts_success db now body db' rowid H)
    as (m & d & a & c & cat & _ & _ & _ & Hcur & _ & _ & ->).
  rewrite Hc in Hcur. simpl in Hcur. inversion Hcur; subst.
  eexists. simpl. repeat split.
Qed.

(** C5, as the code has it: a create succeeds only when merchant, date,
    category and an amount other than NaN are present, and then stores one
    new record, under the id it answers with, that holds the merchant, date,
    category and image of the request as they are, the amount of the request
    (a zero of either sign as 0) and the tax of the request (none when it is
    absent or NaN, a zero of either sign as 0); the values themselves are
    not examined. *)
Theorem post_receipts_stores_request (db : Db) (now : string) (body : Body) :
  forall db' rowid,
    post_receipts db now body = (db', mkHttp 200 (PId rowid)) ->
    exists r a,
      rows db' = rows db ++ [r]
      /\ id r = rowid
      /\ b_merchant body = Some (merchant r)
      /\ b_date body = Some (date r)
      /\ b_category body = Some (category r)
      /\ image_url r = b_image_url body
      /\ b_amount body = Some a
      /\ PrimFloat.is_nan a = false
      /\ amount r = (if PrimFloat.is_zero a then 0%float else a)
      /\ tax r = match b_tax body with
                 | Some t =>
                     if PrimFloat.is_nan t then None
                     else Some (if PrimFloat.is_zero t then 0%float else t)
                 | None => None
                 end.
Proof.
  intros db' rowid H.
  destruct (post_receipts_success db now body db' rowid H)
    as (m & d & a0 & c & cat & Hm & Hd & Ha & _ & Hcat & _ & ->).
  destruct (b_amount body) as [a|] eqn:Eamount; [| discriminate Ha].
  simpl in Ha.
  destruct (PrimFloat.is_nan a) eqn:En; [discriminate Ha|].
  eexists. exists a. simpl.
  repeat (split; [first [assumption | reflexivity]|]).
  split.
  - destruct (PrimFloat.is_zero a); inversion Ha; reflexivity.
  - destruct (b_tax body) as [t|]; simpl; [| reflexivity].
    destruct (PrimFloat.is_nan t); [reflexivity|].
    destruct (PrimFloat.is_zero t); reflexivity.
Qed.

End ServerFacts.

Section ServerExamples.
Import JS Server Samples.
Local Open Scope float_scope.

Lemma post_receipts_currency_fallback_witness :
  exists r,
    rows (fst (post_receipts empty_db "2024-03-02 09:00:00" body_without_currency))
    = rows empty_db ++ [r]
    /\ id r = 1%Z /\ currency r = "USD" /\ currency r = currency_column_default.
Proof.
  apply (post_receipts_currency_fallback empty_db "2024-03-02 09:00:00"
           body_without_currency); reflexivity.
Defined.

(** The claim of C4 fails on a create without a currency: the stored
    currency is USD, not INR. *)
Lemma create_without_currency_is_not_INR :
  b_currency body_without_currency = None
  /\ exists db' r,
       post_receipts empty_db "2024-03-02 09:00:00" body_without_currency
       = (db', mkHttp 200 (PId 1))
       /\ rows db' = [r]
       /\ currency r = "USD"
       /\ currency r <> "INR".
Proof.
  split; [reflexivity|].
  do 2 eexists. split; [reflexivity|].
  split; [reflexivity|]. split; [reflexivity | discriminate].
Qed.

Lemma post_receipts_stores_request_witness :
  (exists r a,
      rows (fst (post_receipts empty_db "2024-03-02 09:00:00" body_unchecked))
      = rows empty_db ++ [r]
      /\ id r = 1%Z
      /\ b_merchant body_unchecked = Some (merchant r)
      /\ b_date body_unchecked = Some (date r)
      /\ b_category body_unchecked = Some (category r)
      /\ image_url r = b_image_url body_unchecked
      /\ b_amount body_unchecked = Some a
      /\ PrimFloat.is_nan a = false
      /\ amount r = (if PrimFloat.is_zero a then 0 else a)
      /\ tax r = Some 5)
  /\ (exists r a,
        rows (fst (post_receipts empty_db "2024-03-02 09:00:00"
                     body_negative_zero))
        = rows empty_db ++ [r]
        /\ id r = 1%Z
        /\ b_merchant body_negative_zero = Some (merchant r)
        /\ b_date body_negative_zero = Some (date r)
        /\ b_category body_negative_zero = Some (category r)
        /\ image_url r = b_image_url body_negative_zero
        /\ b_amount body_negative_zero = Some a
        /\ PrimFloat.is_nan a = false
        /\ amount r = (if PrimFloat.is_zero a then 0 else a)
        /\ tax r = Some 0).
Proof.
  split.
  - apply (post_receipts_stores_request empty_db "2024-03-02 09:00:00"
             body_unchecked _ 1%Z).
    reflexivity.
  - apply (post_receipts_stores_request empty_db "2024-03-02 09:00:00"
             body_negative_zero _ 1%Z).
    reflexivity.
Defined.

(** A request with amount and tax -0 is stored with 0 for both. *)
Example create_negative_zero :
  exists db' r,
    post_receipts empty_db "2024-03-02 09:00:00" body_negative_zero
    = (db', mkHttp 200 (PId 1))
    /\ rows db' = [r]
    /\ amount r = 0 /\ tax r = Some 0
    /\ PrimFloat.is_zero (-0) = true /\ 0 <> -0.
Proof.
  do 2 eexists. split; [reflexivity|].
  repeat split. intro H.
  assert (E : PrimFloat.div 1 0 = PrimFloat.div 1 (-0)) by (rewrite <- H; reflexivity).
  vm_compute in E. discriminate E.
Qed.

(** The claim of C5 fails on a request with an empty merchant, a negative
    amount and a tax above the amount: the create succeeds and stores it. *)
Lemma create_stores_unchecked_record :
  exists db' r,
    post_receipts empty_db "2024-03-02 09:00:00" body_unchecked
    = (db', mkHttp 200 (PId 1))
    /\ rows db' = [r]
    /\ merchant r = "" /\ amount r = -1 /\ tax r = Some 5
    /\ amount_nonneg r = false
    /\ tax_within_amount r = false
    /\ merchant_nonempty r = false
    /\ record_invariant r = false.
Proof.
  do 2 eexists. split; [reflexivity|].
  repeat split.
Qed.

(** The same through the views: the default form, confirmed as it is, is
    stored with an empty merchant. *)
Example confirm_default_form :
  let receipt :=
    Review.confirmedReceipt (Review.initialFormData "2024-03-02" None) jpeg in
  exists db' r,
    post_receipts empty_db "2024-03-02 09:00:00" (Review.request_body receipt)
    = (db', mkHttp 200 (PId 1))
    /\ rows db' = [r]
    /\ merchant r = "" /\ currency r = "INR"
    /\ record_invariant r = false.
Proof.
  do 2 eexists. split; [reflexivity|]. repeat split.
Qed.

(** The scenario of the specification: the Cafe Luna extraction, confirmed
    without edits, is stored without a tax. *)
Example confirm_cafe_luna :
  let receipt :=
    Review.confirmedReceipt
      (Review.initialFormData "2024-03-02" (Some cafe_luna_extracted)) jpeg in
  exists db' r,
    post_receipts empty_db "2024-03-02 09:00:00" (Review.request_body receipt)
    = (db', mkHttp 200 (PId 1))
    /\ rows db' = [r]
    /\ merchant r = "Cafe Luna" /\ amount r = 42.5 /\ tax r = None
    /\ image_url r = Some jpeg.
Proof.
  do 2 eexists. split; [reflexivity|]. repeat split.
Qed.

End ServerExamples.

(* ================================================================== *)
(** * Properties of the capture session *)
(* ================================================================== *)

Section SessionFacts.
Import Types Session Samples.

Lemma single_flight_init : single_flight init.
Proof.
  split; [intros _; split; reflexivity | left; reflexivity].
Qed.

Lemma single_flight_step (a a' : App) (e : Event) :
  single_flight a -> step a e = Some a' -> single_flight a'.
Proof.
  intros [Hidle Hone] H.
  destruct e; simpl in H.
  - destruct (is_LIST (state a)); inversion H; subst; split; assumption.
  - destruct (is_SCANNING (state a)); simpl in H; [| discriminate].
    destruct (isScanning a) eqn:E; simpl in H; inversion H; subst; simpl.
    destruct (Hidle eq_refl) as [_ Ht].
    split; [discriminate | right; exact Ht].
  - destruct (interval a); inversion H; subst; split; assumption.
  - destruct (extracting a) as [b|] eqn:E; inversion H; subst; simpl.
    split; [| left; reflexivity].
    intro Hs. destruct (Hidle Hs) as [Hx _]. discriminate.
  - destruct (timeout a) as [sc|] eqn:E; inversion H; subst; simpl.
    destruct Hone as [Hx|Ht]; [| discriminate].
    split; [intros _; split; [exact Hx | reflexivity] | left; exact Hx].
  - destruct (is_SCANNING (state a)); inversion H; subst; split; assumption.
  - destruct (is_REVIEW_DETAIL (state a) && is_some (currentScan a));
      inversion H; subst; split; assumption.
  - destruct (is_REVIEW_DETAIL (state a) && is_some (currentScan a));
      inversion H; subst; split; assumption.
  - inversion H; subst; split; assumption.
Qed.

Lemma single_flight_run (es : list Event) :
  forall a a', single_flight a -> run a es = Some a' -> single_flight a'.
Proof.
  induction es as [|e es IH]; intros a a' Ha H; simpl in H.
  - inversion H; subst. exact Ha.
  - destruct (step a e) as [a1|] eqn:E; [| discriminate].
    apply (IH a1 a'); [| exact H].
    apply (single_flight_step a a1 e Ha E).
Qed.

(** The timeout callback looks at no state: whenever it runs, the review
    view comes up with the scan it holds. *)
Lemma TimeoutFires_unguarded (a : App) (scan : Scan) :
  timeout a = Some scan ->
  exists a', step a TimeoutFires = Some a'
             /\ state a' = REVIEW_DETAIL /\ currentScan a' = Some scan
             /\ isScanning a' = false.
Proof.
  intro H. simpl. rewrite H. eexists. repeat split.
Qed.

(** C2, as the code has it: closing the scanner while extraction is under
    way returns to the list, and the result that arrives afterwards is still
    applied: the session moves to the review view, seeded with the image
    and that result. *)
Theorem late_result_applied_after_close (a : App) (base64 : string)
    (extracted : option ExtractedReceipt) :
  state a = SCANNING ->
  extracting a = Some base64 ->
  exists closed a',
    step a Close = Some closed
    /\ state closed = LIST
    /\ run closed [Extracted extracted; TimeoutFires] = Some a'
    /\ reviewing a' extracted
    /\ currentScan a' = Some (mkScan base64 extracted).
Proof.
  intros Hs Hx. simpl. rewrite Hs. simpl. rewrite Hx. simpl.
  do 2 eexists. split; [reflexivity|]. split; [reflexivity|].
  split; [reflexivity|]. split; [| reflexivity].
  split; [reflexivity | eexists; reflexivity].
Qed.

Lemma late_result_applied_after_close_witness :
  exists closed a',
    step capturing Close = Some closed
    /\ state closed = LIST
    /\ run closed [Extracted (Some cafe_luna_extracted); TimeoutFires] = Some a'
    /\ reviewing a' (Some cafe_luna_extracted)
    /\ currentScan a' = Some (mkScan jpeg (Some cafe_luna_extracted)).
Proof.
  apply (late_result_applied_after_close capturing jpeg
           (Some cafe_luna_extracted)); reflexivity.
Defined.

(** The claim of C2 fails on the session that adds, captures and closes
    before extraction returns: the result is not discarded. *)
Lemma stale_result_opens_review :
  run init [Add true; Capture jpeg] = Some capturing
  /\ exists closed a',
       run init [Add true; Capture jpeg; Close] = Some closed
       /\ state closed = LIST
       /\ run closed [Extracted (Some cafe_luna_extracted); TimeoutFires]
          = Some a'
       /\ state a' = REVIEW_DETAIL
       /\ currentScan a' = Some (mkScan jpeg (Some cafe_luna_extracted)).
Proof.
  split; [reflexivity|].
  do 2 eexists. repeat split.
Qed.

End SessionFacts.

(* ================================================================== *)
(** * More on the server: outcomes of a create, ids, deletion *)
(* ================================================================== *)

Section ServerRuns.
Import JS Server.

Lemma bind_real_not_NaN (x : option number) (a : number) :
  bind_real x = Some a -> PrimFloat.is_nan a = false.
Proof.
  destruct x as [v|]; simpl; [| discriminate].
  destruct (PrimFloat.is_nan v) eqn:E; [discriminate|].
  destruct (PrimFloat.is_zero v); intro H; inversion H; subst;
    [reflexivity | exact E].
Qed.

Lemma currency_or_USD_nonempty (c : option string) (x : string) :
  currency_or_USD c = Some x -> x <> "".
Proof.
  destruct c as [[|ch rest]|]; simpl; intro H; inversion H; discriminate.
Qed.

Lemma post_receipts_status (db : Db) (now : string) (body : Body) :
  (status (snd (post_receipts db now body)) = 200%Z
   <-> (b_merchant body <> None /\ b_date body <> None
        /\ bind_real (b_amount body) <> None /\ b_category body <> None
        /\ (seq db < max_rowid)%Z))
  /\ (status (snd (post_receipts db now body)) <> 200%Z ->
      post_receipts db now body
      = (db, mkHttp 500 (PError "Failed to save receipt"))).
Proof.
  unfold post_receipts, insert_receipt.
  assert (Hc : exists c, currency_or_USD (b_currency body) = Some c).
  { unfold currency_or_USD. destruct (b_currency body) as [c|]; [| eauto].
    destruct (truthy_string c); eauto. }
  destruct Hc as [c ->].
  destruct (b_merchant body) as [m|];
    destruct (b_date body) as [d|];
    destruct (bind_real (b_amount body)) as [a|];
    destruct (b_category body) as [cat|];
    try (simpl; split; [split; [discriminate | intros (? & ? & ? & ? & ?); congruence]
                       | reflexivity]).
  destruct (seq db <? max_rowid)%Z eqn:E; simpl.
  - apply Z.ltb_lt in E.
    split; [| intro H; exfalso; apply H; reflexivity].
    split; [intros _; repeat split; try discriminate; exact E | reflexivity].
  - apply Z.ltb_ge in E.
    split; [| reflexivity].
    split; [discriminate | intros (_ & _ & _ & _ & Hlt); lia].
Qed.

(** X1: a create answers 200 exactly when merchant, date, category and an
    amount other than NaN are present and an id is left to hand out; any
    other create answers 500 with the fixed error and leaves the table as it
    was. *)
Theorem post_receipts_succeeds_iff (db : Db) (now : string) (body : Body) :
  (status (snd (post_receipts db now body)) = 200%Z
   <-> (b_merchant body <> None /\ b_date body <> None
        /\ bind_real (b_amount body) <> None /\ b_category body <> None
        /\ (seq db < max_rowid)%Z))
  /\ (status (snd (post_receipts db now body)) <> 200%Z ->
      post_receipts db now body
      = (db, mkHttp 500 (PError "Failed to save receipt"))).
Proof.
  exact (post_receipts_status db now body).
Qed.

Lemma post_receipts_succeeds_iff_witness :
  status (snd (post_receipts empty_db "2024-03-02 09:00:00"
                 Samples.body_unchecked)) = 200%Z
  /\ post_receipts empty_db "2024-03-02 09:00:00" Samples.body_without_merchant
     = (empty_db, mkHttp 500 (PError "Failed to save receipt")).
Proof.
  destruct (post_receipts_succeeds_iff empty_db "2024-03-02 09:00:00"
              Samples.body_unchecked) as [[_ Hok] _].
  destruct (post_receipts_succeeds_iff empty_db "2024-03-02 09:00:00"
              Samples.body_without_merchant) as [_ Hfail].
  split.
  - apply Hok. repeat split; discriminate.
  - apply Hfail. discriminate.
Defined.

Lemma StronglySorted_snoc (l : list Z) (x : Z) :
  StronglySorted Z.lt l -> Forall (fun y => (y < x)%Z) l ->
  StronglySorted Z.lt (l ++ [x]).
Proof.
  induction 1 as [|y l Hs IH Hy]; intro Hall; simpl.
  - constructor; constructor.
  - inversion Hall; subst. constructor.
    + apply IH. assumption.
    + apply Forall_app. split; [assumption | constructor; [assumption | constructor]].
Qed.

Lemma StronglySorted_lt_NoDup (l : list Z) :
  StronglySorted Z.lt l -> NoDup l.
Proof.
  induction 1 as [|y l Hs IH Hy]; constructor; [| exact IH].
  intro Hin. rewrite Forall_forall in Hy. specialize (Hy y Hin). lia.
Qed.

Lemma ids_ascending_filter (f : Row -> bool) (l : list Row) :
  StronglySorted Z.lt (map id l) ->
  StronglySorted Z.lt (map id (filter f l)).
Proof.
  induction l as [|r l IH]; simpl; intro H; [constructor|].
  inversion H as [|? ? Hs Hall]; subst.
  destruct (f r); simpl; [| apply IH; exact Hs].
  constructor; [apply IH; exact Hs|].
  rewrite Forall_forall in *. intros y Hy. apply Hall.
  rewrite in_map_iff in *. destruct Hy as (r' & <- & Hr').
  exists r'. split; [reflexivity|]. apply filter_In in Hr'. tauto.
Qed.

(** One request keeps the ids ascending and below the counter, never lowers
    the counter, and a create answers with an id above the old counter, which
    becomes the new counter. *)
Lemma serve_ids (db db' : Db) (req : Request) (reply : Reply) :
  ids_ascending db -> serve db req = (db', reply) ->
  ids_ascending db' /\ (seq db <= seq db')%Z
  /\ Forall (fun n => (seq db < n <= seq db')%Z) (issued [reply]).
Proof.
  intros [Hs Hle] H. destruct req as [now body|rowid|]; simpl in H.
  - destruct (post_receipts db now body) as [d r] eqn:E.
    injection H as Hd Hr. subst db' reply.
    destruct r as [st [l|n|e]].
    + assert (Hd : d = db).
      { apply (post_receipts_failure_atomic db now body d _ E).
        unfold post_receipts in E.
        destruct (insert_receipt _ _ _ _ _ _ _ _ _) as [[? ?]|?];
          inversion E. }
      subst. simpl. repeat split; auto; try lia.
    + assert (Hst : st = 200%Z).
      { unfold post_receipts in E.
        destruct (insert_receipt _ _ _ _ _ _ _ _ _) as [[? ?]|?];
          inversion E; reflexivity. }
      subst st.
      destruct (post_receipts_success db now body d n E)
        as (m & dt & a & c & cat & _ & _ & _ & _ & _ & Hn & ->).
      subst n. unfold ids_ascending. simpl. split; [split|].
      * rewrite map_app. simpl. apply StronglySorted_snoc; [exact Hs|].
        rewrite Forall_map. eapply Forall_impl; [| exact Hle].
        simpl. intros; lia.
      * apply Forall_app. split.
        -- eapply Forall_impl; [| exact Hle]. simpl. intros; lia.
        -- constructor; [simpl; lia | constructor].
      * split; [lia|]. constructor; [lia | constructor].
    + assert (Hd : d = db).
      { unfold post_receipts in E.
        destruct (insert_receipt _ _ _ _ _ _ _ _ _) as [[? ?]|?];
          inversion E; reflexivity. }
      subst. simpl. repeat split; auto; try lia.
  - inversion H; subst; clear H. unfold ids_ascending. simpl. split; [split|].
    + apply ids_ascending_filter. exact Hs.
    + apply Forall_forall. intros r Hr. apply filter_In in Hr.
      rewrite Forall_forall in Hle. apply Hle. tauto.
    + split; [lia | constructor].
  - inversion H; subst; clear H. simpl. repeat split; auto; try lia.
Qed.

Lemma issued_cons (reply : Reply) (replies : list Reply) :
  issued (reply :: replies) = issued [reply] ++ issued replies.
Proof.
  destruct reply as [[st [l|n|e]]|r|r]; reflexivity.
Qed.

Lemma serve_all_ids (reqs : list Request) :
  forall db db' replies,
    ids_ascending db -> serve_all db reqs = (db', replies) ->
    ids_ascending db' /\ (seq db <= seq db')%Z
    /\ StronglySorted Z.lt (issued replies)
    /\ Forall (fun n => (seq db < n <= seq db')%Z) (issued replies).
Proof.
  induction reqs as [|req reqs IH]; intros db db' replies Hdb H; simpl in H.
  - inversion H; subst. simpl.
    repeat split; try apply Hdb; try lia; constructor.
  - destruct (serve db req) as [d1 reply] eqn:E1.
    destruct (serve_all d1 reqs) as [d2 rest] eqn:E2.
    inversion H; subst; clear H.
    destruct (serve_ids db d1 req reply Hdb E1) as (H1 & Hle1 & Hi1).
    destruct (IH d1 db' rest H1 E2) as (H2 & Hle2 & Hs2 & Hi2).
    rewrite issued_cons.
    split; [exact H2|]. split; [lia|]. split.
    + destruct (issued [reply]) as [|n [|n' l]] eqn:En.
      * exact Hs2.
      * simpl. constructor; [exact Hs2|].
        inversion Hi1; subst.
        eapply Forall_impl; [| exact Hi2]. simpl. intros; lia.
      * destruct reply as [[st [l0|n0|e0]]|r|r]; discriminate En.
    + apply Forall_app. split.
      * eapply Forall_impl; [| exact Hi1]. simpl. intros; lia.
      * eapply Forall_impl; [| exact Hi2]. simpl. intros; lia.
Qed.

Lemma ids_ascending_empty : ids_ascending empty_db.
Proof. split; constructor. Qed.

(** X2: whatever requests the server has answered, the stored records have
    pairwise distinct ids, ascending in the order of insertion. *)
Theorem stored_ids_unique (reqs : list Request) (db : Db) (replies : list Reply) :
  serve_all empty_db reqs = (db, replies) ->
  NoDup (map id (rows db)) /\ StronglySorted Z.lt (map id (rows db)).
Proof.
  intro H.
  destruct (serve_all_ids reqs empty_db db replies ids_ascending_empty H)
    as ([Hs _] & _).
  split; [apply StronglySorted_lt_NoDup|]; exact Hs.
Qed.

Lemma stored_ids_unique_witness :
  NoDup (map id (rows (fst (serve_all empty_db Samples.api_run))))
  /\ StronglySorted Z.lt (map id (rows (fst (serve_all empty_db Samples.api_run)))).
Proof.
  apply (stored_ids_unique Samples.api_run _
           (snd (serve_all empty_db Samples.api_run))).
  reflexivity.
Defined.

(** X3: the ids that successive creates answer with increase strictly, so
    an id is never handed out twice, also not after its record was
    deleted. *)
Theorem issued_ids_increase (reqs : list Request) (db : Db) (replies : list Reply) :
  serve_all empty_db reqs = (db, replies) ->
  StronglySorted Z.lt (issued replies)
  /\ Forall (fun n => (0 < n <= seq db)%Z) (issued replies).
Proof.
  intro H.
  destruct (serve_all_ids reqs empty_db db replies ids_ascending_empty H)
    as (_ & _ & Hs & Hi).
  split; assumption.
Qed.

Lemma issued_ids_increase_witness :
  issued (snd (serve_all empty_db Samples.api_run)) = [1; 2; 3]%Z
  /\ StronglySorted Z.lt (issued (snd (serve_all empty_db Samples.api_run))).
Proof.
  split; [reflexivity|].
  apply (issued_ids_increase Samples.api_run
           (fst (serve_all empty_db Samples.api_run))).
  reflexivity.
Defined.

Lemma filter_filter_same {A} (f : A -> bool) (l : list A) :
  filter f (filter f l) = filter f l.
Proof.
  induction l as [|x l IH]; simpl; [reflexivity|].
  destruct (f x) eqn:E; simpl; [rewrite E, IH; reflexivity | exact IH].
Qed.

Lemma filter_all {A} (f : A -> bool) (l : list A) :
  Forall (fun x => f x = true) l -> filter f l = l.
Proof.
  induction 1 as [|x l Hx Hl IH]; simpl; [reflexivity|].
  rewrite Hx, IH. reflexivity.
Qed.

(** X4: a delete always answers success; it removes the records of that id
    and no other, keeps the counter, and is idempotent: a second delete of
    the same id changes nothing and answers the same; a delete of an id that
    is not stored leaves the table as it was. *)
Theorem delete_receipts_idempotent (db : Db) (rowid : Z) :
  snd (delete_receipts db rowid) = mkDeleted 200 true
  /\ (forall r, In r (rows (fst (delete_receipts db rowid)))
                <-> In r (rows db) /\ id r <> rowid)
  /\ seq (fst (delete_receipts db rowid)) = seq db
  /\ delete_receipts (fst (delete_receipts db rowid)) rowid
     = delete_receipts db rowid
  /\ (~ In rowid (map id (rows db)) -> fst (delete_receipts db rowid) = db).
Proof.
  split; [reflexivity|]. split; [| split; [reflexivity | split]].
  - intro r. simpl. rewrite filter_In.
    rewrite negb_true_iff, Z.eqb_neq. tauto.
  - unfold delete_receipts, delete_where_id. simpl.
    rewrite filter_filter_same. reflexivity.
  - intro Hn. unfold delete_receipts, delete_where_id. simpl.
    rewrite filter_all; [destruct db; reflexivity|].
    apply Forall_forall. intros r Hr.
    rewrite negb_true_iff, Z.eqb_neq. intro Heq.
    apply Hn. rewrite in_map_iff. exists r. split; assumption.
Qed.

Lemma delete_receipts_idempotent_witness :
  fst (delete_receipts Samples.two_same_day 7) = Samples.two_same_day.
Proof.
  destruct (delete_receipts_idempotent Samples.two_same_day 7)
    as (_ & _ & _ & _ & Hmissing).
  apply Hmissing. simpl. intros [H|[H|[]]]; discriminate H.
Defined.

Lemma sorter_snoc (table : list Row) (r : Row) :
  fold_left (fun s x => sorter_insert x s) (table ++ [r]) []
  = sorter_insert r (fold_left (fun s x => sorter_insert x s) table []).
Proof.
  rewrite fold_left_app. reflexivity.
Qed.

(** X5: after a successful create the list holds the new record, under the
    id the create answered with, together with exactly the records it held
    before. *)
Theorem create_then_list (db : Db) (now : string) (body : Body) :
  forall db' rowid,
    post_receipts db now body = (db', mkHttp 200 (PId rowid)) ->
    exists r before after,
      get_receipts db = mkHttp 200 (PReceipts before)
      /\ get_receipts db' = mkHttp 200 (PReceipts after)
      /\ id r = rowid
      /\ In r after
      /\ Permutation (r :: before) after.
Proof.
  intros db' rowid H.
  destruct (post_receipts_success db now body db' rowid H)
    as (m & d & a & c & cat & _ & _ & _ & _ & _ & _ & ->).
  exists (mkRow rowid m d a (bind_real (b_tax body)) c cat (b_image_url body) now).
  exists (select_order_by_date_desc db). eexists.
  split; [reflexivity|]. split; [reflexivity|].
  unfold select_order_by_date_desc. simpl. rewrite sorter_snoc.
  split; [reflexivity|]. split.
  - eapply Permutation_in; [apply sorter_insert_perm | left; reflexivity].
  - apply sorter_insert_perm.
Qed.

Lemma create_then_list_witness :
  exists r before after,
    get_receipts empty_db = mkHttp 200 (PReceipts before)
    /\ get_receipts
         (fst (post_receipts empty_db "2024-03-02 09:00:00"
                 Samples.body_unchecked))
       = mkHttp 200 (PReceipts after)
    /\ id r = 1%Z
    /\ In r after
    /\ Permutation (r :: before) after.
Proof.
  apply (create_then_list empty_db "2024-03-02 09:00:00"
           Samples.body_unchecked).
  reflexivity.
Defined.

(** X6: deleting the record a create has just stored gives back the rows
    there were, but not the id: the next create answers with the following
    one. *)
Theorem create_then_delete (db : Db) (now : string) (body : Body) :
  forall db' rowid,
    ids_ascending db ->
    post_receipts db now body = (db', mkHttp 200 (PId rowid)) ->
    rows (fst (delete_receipts db' rowid)) = rows db
    /\ seq (fst (delete_receipts db' rowid)) = rowid
    /\ forall now' body' db'' rowid',
         post_receipts (fst (delete_receipts db' rowid)) now' body'
         = (db'', mkHttp 200 (PId rowid')) ->
         rowid' = (rowid + 1)%Z.
Proof.
  intros db' rowid [_ Hle] H.
  destruct (post_receipts_success db now body db' rowid H)
    as (m & d & a & c & cat & _ & _ & _ & _ & _ & Hn & ->).
  simpl. split; [| split; [reflexivity|]].
  - rewrite filter_app. simpl. rewrite Z.eqb_refl. simpl.
    rewrite app_nil_r. apply filter_all.
    eapply Forall_impl; [| exact Hle]. simpl. intros r Hr.
    rewrite negb_true_iff, Z.eqb_neq. lia.
  - intros now' body' db'' rowid' H'.
    destruct (post_receipts_success _ now' body' db'' rowid' H')
      as (? & ? & ? & ? & ? & _ & _ & _ & _ & _ & Hn' & _).
    exact Hn'.
Qed.

Lemma create_then_delete_witness :
  rows (fst (delete_receipts
               (fst (post_receipts Samples.two_same_day "2024-03-02 09:10:00"
                       Samples.body_unchecked)) 3))
  = rows Samples.two_same_day
  /\ seq (fst (delete_receipts
                 (fst (post_receipts Samples.two_same_day "2024-03-02 09:10:00"
                         Samples.body_unchecked)) 3)) = 3%Z.
Proof.
  assert (Hasc : ids_ascending Samples.two_same_day).
  { split; simpl; repeat constructor; simpl; lia. }
  destruct (create_then_delete Samples.two_same_day "2024-03-02 09:10:00"
              Samples.body_unchecked
              (fst (post_receipts Samples.two_same_day "2024-03-02 09:10:00"
                      Samples.body_unchecked)) 3 Hasc eq_refl)
    as (Hrows & Hseq & _).
  split; assumption.
Defined.

Lemma serve_stored_ok (db db' : Db) (req : Request) (reply : Reply) :
  Forall stored_ok (rows db) -> serve db req = (db', reply) ->
  Forall stored_ok (rows db').
Proof.
  intros Hall H. destruct req as [now body|rowid|]; simpl in H.
  - destruct (post_receipts db now body) as [d r] eqn:E.
    injection H as Hd Hr. subst db' reply.
    destruct r as [st p].
    destruct (Z.eq_dec st 200) as [->|Hne].
    + destruct p as [l|n|e];
        try (unfold post_receipts in E;
             destruct (insert_receipt _ _ _ _ _ _ _ _ _) as [[? ?]|?];
             discriminate E).
      destruct (post_receipts_success db now body d n E)
        as (m & dt & a & c & cat & _ & _ & Ha & Hc & _ & _ & ->).
      simpl. apply Forall_app. split; [exact Hall|].
      constructor; [| constructor].
      unfold stored_ok. simpl. split; [| split].
      * apply (currency_or_USD_nonempty _ _ Hc).
      * apply (bind_real_not_NaN _ _ Ha).
      * destruct (bind_real (b_tax body)) as [t|] eqn:Et; [| exact I].
        apply (bind_real_not_NaN _ _ Et).
    + rewrite (post_receipts_failure_atomic db now body d _ E); [exact Hall|].
      simpl. exact Hne.
  - inversion H; subst; clear H. simpl.
    apply Forall_forall. intros r Hr. apply filter_In in Hr.
    rewrite Forall_forall in Hall. apply Hall. tauto.
  - inversion H; subst. exact Hall.
Qed.

(** X7: whatever requests the server has answered, every stored record has
    a currency that is not empty and an amount that is not NaN, and its tax
    is absent or not NaN. *)
Theorem stored_records_ok (reqs : list Request) :
  forall db replies,
    serve_all empty_db reqs = (db, replies) ->
    Forall stored_ok (rows db).
Proof.
  assert (G : forall db0 db replies,
             Forall stored_ok (rows db0) ->
             serve_all db0 reqs = (db, replies) ->
             Forall stored_ok (rows db)).
  { induction reqs as [|req reqs IH]; intros db0 db replies H0 H; simpl in H.
    - inversion H; subst. exact H0.
    - destruct (serve db0 req) as [d1 reply] eqn:E1.
      destruct (serve_all d1 reqs) as [d2 rest] eqn:E2.
      inversion H; subst; clear H.
      apply (IH d1 db rest); [| exact E2].
      apply (serve_stored_ok db0 d1 req reply H0 E1). }
  intros db replies H. apply (G empty_db db replies); [constructor | exact H].
Qed.

Lemma stored_records_ok_witness :
  Forall stored_ok (rows (fst (serve_all empty_db Samples.api_run))).
Proof.
  apply (stored_records_ok Samples.api_run _
           (snd (serve_all empty_db Samples.api_run))).
  reflexivity.
Defined.

End ServerRuns.

(* ================================================================== *)
(** * More on the review form: edits, and what a confirm stores *)
(* ================================================================== *)

Section ReviewRuns.
Import JS Types Review.
Local Open Scope float_scope.

Lemma edit_tax_not_NaN (formData : ExtractedReceipt) (e : Edit) :
  tax_not_NaN formData -> tax_not_NaN (edit formData e).
Proof.
  intro H. destruct e; simpl; try exact H.
  unfold tax_not_NaN. simpl. apply or_number_zero_not_NaN.
Qed.

(** X8: no sequence of edits puts NaN into the tax of the form: starting
    from a form whose tax is absent or not NaN (the default form is one),
    the tax stays so, whatever is typed into any field. *)
Theorem edits_tax_not_NaN (es : list Edit) :
  forall formData,
    tax_not_NaN formData -> tax_not_NaN (edits formData es).
Proof.
  unfold edits.
  induction es as [|e es IH]; intros formData H; simpl.
  - exact H.
  - apply IH. apply edit_tax_not_NaN. exact H.
Qed.

Lemma edits_tax_not_NaN_witness :
  tax_not_NaN
    (edits (initialFormData "2024-03-02" None)
           [EditTax "abc"; EditAmount ""; EditTax ""; EditMerchant "Cafe"]).
Proof.
  apply (edits_tax_not_NaN
           [EditTax "abc"; EditAmount ""; EditTax ""; EditMerchant "Cafe"]
           (initialFormData "2024-03-02" None)).
  reflexivity.
Defined.

Lemma number_on_wire_finite (x : number) :
  (exists v, number_on_wire x = Some v) <-> is_finite x = true.
Proof.
  unfold number_on_wire, is_finite.
  destruct (PrimFloat.is_nan x || PrimFloat.is_infinity x); simpl.
  - split; [intros [v H]; discriminate | discriminate].
  - split; [reflexivity | intros _].
    destruct (PrimFloat.is_zero x); eauto.
Qed.

Lemma number_on_wire_not_NaN (x v : number) :
  number_on_wire x = Some v -> Server.bind_real (Some v) = Some v.
Proof.
  unfold number_on_wire.
  destruct (PrimFloat.is_nan x || PrimFloat.is_infinity x) eqn:E;
    [discriminate|].
  apply orb_false_elim in E. destruct E as [En _].
  destruct (PrimFloat.is_zero x) eqn:Ez; intro H; inversion H; subst; simpl.
  - reflexivity.
  - rewrite En, Ez. reflexivity.
Qed.

Lemma posted_string_present (v : option Json) (o : option string) :
  posted_string v = Some o ->
  (o <> None <-> exists s, v = Some (JString s)).
Proof.
  destruct v as [[| | |s| |]|]; simpl; intro H; inversion H; subst.
  - split; [congruence | intros [s E]; discriminate E].
  - split; [intros _; eauto | discriminate].
  - split; [congruence | intros [s E]; discriminate E].
Qed.

Lemma posted_number_present (v : option Json) (o : option number) :
  posted_number v = Some o ->
  (Server.bind_real o <> None
   <-> exists a, v = Some (JNumber a) /\ is_finite a = true).
Proof.
  destruct v as [[| |x| | |]|]; simpl; intro H; inversion H; subst.
  - split; [simpl; congruence | intros [a [E _]]; discriminate E].
  - split.
    + intro Hb. exists x. split; [reflexivity|].
      apply number_on_wire_finite.
      destruct (number_on_wire x) as [w|]; [eauto | simpl in Hb; congruence].
    + intros [a [E Hf]]. inversion E; subst a.
      apply number_on_wire_finite in Hf. destruct Hf as [w Hw].
      rewrite Hw, (number_on_wire_not_NaN _ _ Hw). discriminate.
  - split; [simpl; congruence | intros [a [E _]]; discriminate E].
Qed.

(** The typed request body is what is posted for a form that is a typed
    record. *)
Lemma posted_body_typed (x : ExtractedReceipt) (image : string) :
  posted_body (to_object x) image
  = Some (request_body (confirmedReceipt x image)).
Proof.
  destruct x as [m d a [t|] c cat]; reflexivity.
Qed.

(** X9: whatever value the form holds, the body that a confirm posts is
    stored exactly when the form has a merchant, a date and a category that
    are strings and an amount that is a finite number (and an id is left);
    any other confirm is answered 500 and nothing is stored.  A form seeded
    from a result that lacks the merchant is therefore not stored, however
    good its amount; an empty merchant does not stop it. *)
Theorem confirm_stored_iff_fields (db : Server.Db) (now : string)
    (formData : Json) (image : string) (body : Server.Body) :
  posted_body formData image = Some body ->
  (Server.seq db < Server.max_rowid)%Z ->
  (Server.status (snd (Server.post_receipts db now body)) = 200%Z
   <-> ((exists m, field "merchant" formData = Some (JString m))
        /\ (exists d, field "date" formData = Some (JString d))
        /\ (exists cat, field "category" formData = Some (JString cat))
        /\ (exists a, field "amount" formData = Some (JNumber a)
                      /\ is_finite a = true)))
  /\ (Server.status (snd (Server.post_receipts db now body)) <> 200%Z ->
      Server.post_receipts db now body
      = (db, Server.mkHttp 500 (Server.PError "Failed to save receipt"))).
Proof.
  intros Hbody Hseq.
  destruct (post_receipts_status db now body) as [Hiff Hfail].
  split; [| exact Hfail].
  unfold posted_body in Hbody.
  destruct (posted_string (field "merchant" formData)) as [m|] eqn:Em;
    [| discriminate Hbody].
  destruct (posted_string (field "date" formData)) as [d|] eqn:Ed;
    [| discriminate Hbody].
  destruct (posted_number (field "amount" formData)) as [a|] eqn:Ea;
    [| discriminate Hbody].
  destruct (posted_number (field "tax" formData)) as [t|];
    [| discriminate Hbody].
  destruct (posted_string (field "currency" formData)) as [c|];
    [| discriminate Hbody].
  destruct (posted_string (field "category" formData)) as [cat|] eqn:Ecat;
    [| discriminate Hbody].
  inversion Hbody; subst body; clear Hbody.
  rewrite Hiff. simpl.
  rewrite (posted_string_present _ _ Em), (posted_string_present _ _ Ed),
    (posted_string_present _ _ Ecat), (posted_number_present _ _ Ea).
  tauto.
Qed.

Lemma confirm_stored_iff_fields_witness :
  Server.post_receipts Server.empty_db "2024-03-02 09:00:00"
    (Server.mkBody None None (Some 5) None None None (Some Samples.jpeg))
  = (Server.empty_db, Server.mkHttp 500 (Server.PError "Failed to save receipt"))
  /\ Server.post_receipts Server.empty_db "2024-03-02 09:00:00"
       (request_body (confirmedReceipt Samples.cleared_amount Samples.jpeg))
     = (Server.empty_db,
        Server.mkHttp 500 (Server.PError "Failed to save receipt"))
  /\ Server.status
       (snd (Server.post_receipts Server.empty_db "2024-03-02 09:00:00"
               (request_body
                  (confirmedReceipt Samples.cafe_luna_extracted Samples.jpeg))))
     = 200%Z.
Proof.
  destruct (confirm_stored_iff_fields Server.empty_db "2024-03-02 09:00:00"
              Samples.only_amount Samples.jpeg
              (Server.mkBody None None (Some 5) None None None
                             (Some Samples.jpeg))
              eq_refl eq_refl) as [_ Hmissing].
  destruct (confirm_stored_iff_fields Server.empty_db "2024-03-02 09:00:00"
              (to_object Samples.cleared_amount) Samples.jpeg
              (request_body
                 (confirmedReceipt Samples.cleared_amount Samples.jpeg))
              eq_refl eq_refl) as [_ Hcleared].
  destruct (confirm_stored_iff_fields Server.empty_db "2024-03-02 09:00:00"
              (to_object Samples.cafe_luna_extracted) Samples.jpeg
              (request_body
                 (confirmedReceipt Samples.cafe_luna_extracted Samples.jpeg))
              eq_refl eq_refl) as [[_ Hok] _].
  split; [| split].
  - apply Hmissing. discriminate.
  - apply Hcleared. discriminate.
  - apply Hok. repeat split; eexists; try reflexivity.
    split; reflexivity.
Defined.

(** X10: when a confirm is stored, the record holds the merchant, date and
    category of the form and the image as they are, the currency of the form
    or USD when that is empty, the amount (0 for -0), and the tax of the
    form unless that is absent or not finite, in which case none. *)
Theorem confirm_stores_form (db : Server.Db) (now : string)
    (formData : ExtractedReceipt) (image : string) :
  forall db' rowid,
    Server.post_receipts db now (request_body (confirmedReceipt formData image))
    = (db', Server.mkHttp 200 (Server.PId rowid)) ->
    exists r,
      Server.rows db' = Server.rows db ++ [r]
      /\ Server.merchant r = x_merchant formData
      /\ Server.date r = x_date formData
      /\ Server.category r = x_category formData
      /\ Server.image_url r = Some image
      /\ Server.currency r
         = (if truthy_string (x_currency formData) then x_currency formData
            else "USD")
      /\ number_on_wire (x_amount formData) = Some (Server.amount r)
      /\ Server.tax r
         = match x_tax formData with
           | Some t => number_on_wire t
           | None => None
           end.
Proof.
  intros db' rowid H.
  destruct (post_receipts_success db now _ db' rowid H)
    as (m & d & a & c & cat & Hm & Hd & Ha & Hc & Hcat & _ & ->).
  simpl in Hm, Hd, Ha, Hc, Hcat.
  inversion Hm; inversion Hd; inversion Hcat; subst.
  eexists. simpl. split; [reflexivity|]. repeat split.
  - destruct (truthy_string (x_currency formData)); inversion Hc; reflexivity.
  - destruct (number_on_wire (x_amount formData)) as [v|] eqn:E;
      [| discriminate Ha].
    rewrite (number_on_wire_not_NaN _ _ E) in Ha. exact Ha.
  - destruct (x_tax formData) as [t|]; [| reflexivity].
    destruct (number_on_wire t) as [v|] eqn:E; [| reflexivity].
    apply (number_on_wire_not_NaN _ _ E).
Qed.

Lemma confirm_stores_form_witness :
  exists r,
    Server.rows
      (fst (Server.post_receipts Server.empty_db "2024-03-02 09:00:00"
              (request_body
                 (confirmedReceipt Samples.cafe_luna_extracted Samples.jpeg))))
    = Server.rows Server.empty_db ++ [r]
    /\ Server.merchant r = "Cafe Luna"
    /\ Server.date r = "2024-03-01"
    /\ Server.category r = "Food & Drinks"
    /\ Server.image_url r = Some Samples.jpeg
    /\ Server.currency r = "USD"
    /\ number_on_wire 42.5 = Some (Server.amount r)
    /\ Server.tax r = None.
Proof.
  apply (confirm_stores_form Server.empty_db "2024-03-02 09:00:00"
           Samples.cafe_luna_extracted Samples.jpeg _ 1%Z).
  reflexivity.
Defined.

End ReviewRuns.

(* ================================================================== *)
(** * More on the extraction client: the image data it sends *)
(* ================================================================== *)

Section GeminiRuns.
Import JS Gemini.

Lemma string_of_list_ascii_app (l1 l2 : list ascii) :
  string_of_list_ascii (l1 ++ l2)
  = (string_of_list_ascii l1 ++ string_of_list_ascii l2)%string.
Proof.
  induction l1 as [|x l1 IH]; simpl; [reflexivity|].
  rewrite IH. reflexivity.
Qed.

Lemma string_of_rev_app (s : string) (cur : list ascii) :
  string_of_rev (rev (list_ascii_of_string s) ++ cur)
  = (string_of_rev cur ++ s)%string.
Proof.
  unfold string_of_rev.
  rewrite rev_app_distr, rev_involutive, string_of_list_ascii_app.
  rewrite string_of_list_ascii_of_string. reflexivity.
Qed.

Lemma split_comma_no_comma (s : string) :
  forall cur,
    no_comma s = true ->
    split_comma s cur = [string_of_rev (rev (list_ascii_of_string s) ++ cur)].
Proof.
  unfold no_comma.
  induction s as [|c s IH]; intros cur H; simpl in *.
  - reflexivity.
  - apply andb_prop in H. destruct H as [Hc Hs].
    apply negb_true_iff in Hc. rewrite Hc.
    rewrite (IH (c :: cur) Hs). rewrite <- app_assoc. reflexivity.
Qed.

Lemma split_comma_prefix (prefix rest : string) :
  forall cur,
    no_comma prefix = true ->
    split_comma (prefix ++ String "," rest)%string cur
    = string_of_rev (rev (list_ascii_of_string prefix) ++ cur)
      :: split_comma rest [].
Proof.
  unfold no_comma.
  induction prefix as [|c p IH]; intros cur H; simpl in *.
  - reflexivity.
  - apply andb_prop in H. destruct H as [Hc Hs].
    apply negb_true_iff in Hc. rewrite Hc.
    rewrite (IH (c :: cur) Hs). rewrite <- app_assoc. reflexivity.
Qed.

(** X11: of an image given as a data URI, a prefix without a comma, a comma
    and a non-empty payload without a comma, the client sends the payload
    alone; an image string without any comma is sent as it is. *)
Theorem inline_data_strips_prefix :
  (forall prefix payload,
      no_comma prefix = true -> no_comma payload = true -> payload <> "" ->
      inline_data (prefix ++ String "," payload)%string = payload)
  /\ (forall base64Image,
        no_comma base64Image = true -> inline_data base64Image = base64Image).
Proof.
  split.
  - intros prefix payload Hp Hq Hne. unfold inline_data.
    rewrite (split_comma_prefix prefix payload [] Hp).
    rewrite (split_comma_no_comma payload [] Hq).
    rewrite string_of_rev_app. simpl.
    destruct payload as [|c r]; [congruence | reflexivity].
  - intros base64Image H. unfold inline_data.
    rewrite (split_comma_no_comma base64Image [] H). reflexivity.
Qed.

Lemma inline_data_strips_prefix_witness :
  inline_data Samples.jpeg = "/9j/4AAQ"
  /\ inline_data "/9j/4AAQ" = "/9j/4AAQ".
Proof.
  destruct inline_data_strips_prefix as [Hstrip Hsame].
  split.
  - apply (Hstrip "data:image/jpeg;base64" "/9j/4AAQ");
      [reflexivity | reflexivity | discriminate].
  - apply (Hsame "/9j/4AAQ"). reflexivity.
Defined.

(** X12: a value that conforms to the response schema is an object whose
    typed view holds exactly its own merchant, date, amount, currency,
    category and tax (absent when the object has none); it is truthy, so the
    review form starts from the value itself and not from the defaults. *)
Theorem conforming_result_typed_view (v : Json) (today : string) :
  conforms v = true ->
  exists props x,
    v = JObject props
    /\ as_ExtractedReceipt v = Some x
    /\ get_prop "merchant" props = Some (JString (Types.x_merchant x))
    /\ get_prop "date" props = Some (JString (Types.x_date x))
    /\ get_prop "amount" props = Some (JNumber (Types.x_amount x))
    /\ get_prop "tax" props = option_map JNumber (Types.x_tax x)
    /\ get_prop "currency" props = Some (JString (Types.x_currency x))
    /\ get_prop "category" props = Some (JString (Types.x_category x))
    /\ Review.initialFormValue today v = v.
Proof.
  destruct v as [| | | | |props]; simpl; try discriminate.
  intro H. exists props.
  unfold Review.initialFormValue. simpl.
  destruct (get_prop "merchant" props) as [[]|];
    destruct (get_prop "date" props) as [[]|];
    destruct (get_prop "amount" props) as [[]|];
    destruct (get_prop "currency" props) as [[]|];
    destruct (get_prop "category" props) as [[]|];
    simpl in H; try discriminate H;
    try (rewrite ?andb_false_r in H; discriminate H).
  destruct (get_prop "tax" props) as [[]|];
    simpl in H; try discriminate H;
    eexists; repeat split.
Qed.

Lemma conforming_result_typed_view_witness :
  exists props x,
    Review.to_object Samples.cafe_luna_extracted = JObject props
    /\ as_ExtractedReceipt (Review.to_object Samples.cafe_luna_extracted)
       = Some x
    /\ get_prop "merchant" props = Some (JString (Types.x_merchant x))
    /\ get_prop "date" props = Some (JString (Types.x_date x))
    /\ get_prop "amount" props = Some (JNumber (Types.x_amount x))
    /\ get_prop "tax" props = option_map JNumber (Types.x_tax x)
    /\ get_prop "currency" props = Some (JString (Types.x_currency x))
    /\ get_prop "category" props = Some (JString (Types.x_category x))
    /\ Review.initialFormValue "2024-03-02"
         (Review.to_object Samples.cafe_luna_extracted)
       = Review.to_object Samples.cafe_luna_extracted.
Proof.
  apply (conforming_result_typed_view
           (Review.to_object Samples.cafe_luna_extracted) "2024-03-02").
  reflexivity.
Defined.

(** The typed record and the object it is agree, and so do the two default
    forms. *)
Lemma as_ExtractedReceipt_to_object (x : Types.ExtractedReceipt) :
  as_ExtractedReceipt (Review.to_object x) = Some x
  /\ conforms (Review.to_object x) = true.
Proof.
  destruct x as [m d a [t|] c cat]; split; reflexivity.
Qed.

Lemma defaultFormValue_typed (today : string) :
  Review.defaultFormValue today
  = Review.to_object (Review.defaultFormData today).
Proof. reflexivity. Qed.

End GeminiRuns.

(* ================================================================== *)
(** * More on the report: the currency symbol, the order of summation *)
(* ================================================================== *)

Section ReportRuns.
Import JS Types Report.
Local Open Scope float_scope.

(** X13: [getCurrencySymbol] answers the symbol of each of the six listed
    codes and the dollar sign for every other code; the code the aggregates
    fall back to, INR, is not listed, so the aggregates of an empty list,
    and of a list whose first record has an unlisted currency, are shown
    with the dollar sign. *)
Theorem getCurrencySymbol_fallback :
  (forall code symbol,
      In (code, symbol) CURRENCIES -> getCurrencySymbol code = symbol)
  /\ (forall code,
        ~ In code (map fst CURRENCIES) -> getCurrencySymbol code = "$")
  /\ (forall receipts,
        ~ In (report_currency receipts) (map fst CURRENCIES) ->
        getCurrencySymbol (report_currency receipts) = "$")
  /\ getCurrencySymbol (report_currency []) = "$".
Proof.
  assert (Hunlisted : forall code,
             ~ In code (map fst CURRENCIES) -> getCurrencySymbol code = "$").
  { intros code H. unfold getCurrencySymbol, CURRENCIES.
    simpl in H. cbn [find fst snd].
    repeat match goal with
           | |- context [String.eqb ?a code] =>
               destruct (String.eqb_spec a code);
               [exfalso; apply H; tauto|]
           end.
    reflexivity. }
  split; [| split; [exact Hunlisted | split]].
  - intros code symbol H. simpl in H.
    repeat (destruct H as [H|H]; [inversion H; subst; reflexivity|]).
    contradiction.
  - intros receipts H. apply Hunlisted. exact H.
  - reflexivity.
Qed.

Lemma getCurrencySymbol_fallback_witness :
  getCurrencySymbol "EUR" = "€"
  /\ getCurrencySymbol "INR" = "$"
  /\ getCurrencySymbol
       (report_currency
          [mkReceipt (Some 1%Z) "Chai" "2024-03-01" 120 None "INR" "Food & Drinks"
                     None None]) = "$".
Proof.
  destruct getCurrencySymbol_fallback as (Hlisted & Hunlisted & Hreport & _).
  split; [| split].
  - apply (Hlisted "EUR" "€"). simpl. tauto.
  - apply (Hunlisted "INR"). simpl.
    intros [H|[H|[H|[H|[H|[H|[]]]]]]]; discriminate H.
  - apply (Hreport
             [mkReceipt (Some 1%Z) "Chai" "2024-03-01" 120 None "INR"
                        "Food & Drinks" None None]).
    simpl. intros [H|[H|[H|[H|[H|[H|[]]]]]]]; discriminate H.
Defined.

(** X14: [total] depends on the order of the records: receipts of 0.10, 0.20
    and 0.30 total 0.6000000000000001 in that order and 0.6 in the reverse
    order, so the total is not a function of the set of records alone. *)
Theorem total_depends_on_order :
  exists rs1 rs2,
    Permutation rs1 rs2
    /\ total rs1 = 0.6000000000000001
    /\ total rs2 = 0.6
    /\ total rs1 <> total rs2.
Proof.
  exists [Samples.dime; Samples.two_dimes; Samples.three_dimes].
  exists [Samples.three_dimes; Samples.two_dimes; Samples.dime].
  split; [| split; [| split]].
  - apply perm_trans
      with [Samples.two_dimes; Samples.dime; Samples.three_dimes].
    + apply perm_swap.
    + apply perm_trans
        with [Samples.two_dimes; Samples.three_dimes; Samples.dime].
      * apply perm_skip. apply perm_swap.
      * apply perm_swap.
  - vm_compute. reflexivity.
  - vm_compute. reflexivity.
  - vm_compute. intro H.
    assert (E : PrimFloat.eqb 0.6000000000000001 0.6 = true)
      by (rewrite H; reflexivity).
    vm_compute in E. discriminate E.
Qed.

End ReportRuns.

(* ================================================================== *)
(** * More on the capture session: what every reachable state satisfies *)
(* ================================================================== *)

Section SessionRuns.
Import Types Session Samples.

Lemma coherent_init : coherent init.
Proof.
  unfold coherent. simpl.
  split; [apply single_flight_init|].
  repeat split; try discriminate; try lia.
Qed.

(** Splits the guard of an event, one case per branch of [step]. *)
Ltac split_guard H :=
  repeat match type of H with
         | (if ?c then _ else _) = _ => destruct c eqn:?; simpl in H
         | match ?c with _ => _ end = _ => destruct c eqn:?; simpl in H
         end.

Lemma coherent_step (a a' : App) (e : Event) :
  coherent a -> step a e = Some a' -> coherent a'.
Proof.
  intros (Hsf & Hbusy & Hint & Hp & Htick & Hrev) H.
  split; [apply (single_flight_step a a' e Hsf H)|].
  destruct Hsf as [Hidle Hone].
  destruct a as [st rs cs sc pr sm iv ex tm]. simpl in *.
  destruct e; destruct st; simpl in H; split_guard H;
    try discriminate H; inversion H; subst; clear H; simpl in *;
    repeat split; intros; try discriminate; try lia; try tauto; auto;
    try (left; discriminate); try (right; discriminate).
Qed.

Lemma coherent_run (es : list Event) :
  forall a a', coherent a -> run a es = Some a' -> coherent a'.
Proof.
  induction es as [|e es IH]; intros a a' Ha H; simpl in H.
  - inversion H; subst. exact Ha.
  - destruct (step a e) as [a1|] eqn:E; [| discriminate].
    apply (IH a1 a'); [| exact H].
    apply (coherent_step a a1 e Ha E).
Qed.

Lemma reachable_coherent (a : App) : reachable a -> coherent a.
Proof.
  intros [es H]. apply (coherent_run es init a coherent_init H).
Qed.

(** X15: in every reachable state at most one capture is under way, and
    the scanner is busy exactly then: the awaited extraction and the armed
    timeout together number one while [isScanning] is set and none
    otherwise. *)
Theorem one_capture_in_flight (a : App) :
  reachable a ->
  (pending (extracting a) + pending (timeout a)
   = if isScanning a then 1 else 0)%nat.
Proof.
  intro Hr.
  destruct (reachable_coherent a Hr) as ([Hidle Hone] & Hbusy & _).
  destruct (isScanning a).
  - destruct (Hbusy eq_refl) as [H|H];
      destruct (extracting a), (timeout a); simpl;
      try reflexivity; try congruence;
      destruct Hone; discriminate.
  - destruct (Hidle eq_refl) as [-> ->]. reflexivity.
Qed.

Lemma one_capture_in_flight_witness :
  (pending (extracting capturing) + pending (timeout capturing) = 1)%nat.
Proof.
  apply (one_capture_in_flight capturing).
  exists [Add true; Capture jpeg]. reflexivity.
Defined.

(** X16: in every reachable state the progress shown lies between 0 and
    100; the ticker runs exactly while the extraction call is outstanding,
    and the progress then lies between 10 and 85. *)
Theorem progress_bounds (a : App) :
  reachable a ->
  (0 <= progress a <= 100)%Z
  /\ interval a = is_some (extracting a)
  /\ (extracting a <> None -> (10 <= progress a <= 85)%Z).
Proof.
  intro Hr.
  destruct (reachable_coherent a Hr) as (_ & _ & Hint & Hp & Htick & _).
  split; [exact Hp|]. split; [exact Hint|].
  intro Hx. apply Htick. rewrite Hint.
  destruct (extracting a); [reflexivity | congruence].
Qed.

Lemma progress_bounds_witness :
  exists a,
    run init [Add true; Capture jpeg; Tick; Tick] = Some a
    /\ progress a = 20%Z
    /\ (0 <= progress a <= 100)%Z
    /\ interval a = is_some (extracting a)
    /\ (extracting a <> None -> (10 <= progress a <= 85)%Z).
Proof.
  eexists. split; [reflexivity|]. split; [reflexivity|].
  apply progress_bounds.
  exists [Add true; Capture jpeg; Tick; Tick]. reflexivity.
Defined.

(** X17: whenever a reachable state is REVIEW_DETAIL there is a scan to
    review and the scanner is not busy, so the review view is on screen and
    its retake button works. *)
Theorem review_has_scan (a : App) :
  reachable a -> state a = REVIEW_DETAIL ->
  isScanning a = false
  /\ exists scan,
       currentScan a = Some scan
       /\ exists a', step a (Retake true) = Some a' /\ state a' = SCANNING
                     /\ currentScan a' = None.
Proof.
  intros Hr Hs.
  destruct (reachable_coherent a Hr) as (_ & _ & _ & _ & _ & Hrev).
  destruct (Hrev Hs) as [Hc Hi].
  split; [exact Hi|].
  destruct (currentScan a) as [scan|] eqn:E; [| congruence].
  exists scan. split; [reflexivity|].
  simpl. rewrite Hs, E. simpl. eexists. repeat split.
Qed.

Lemma review_has_scan_witness :
  exists a,
    run capturing [Extracted None; TimeoutFires] = Some a
    /\ isScanning a = false
    /\ exists scan,
         currentScan a = Some scan
         /\ exists a', step a (Retake true) = Some a' /\ state a' = SCANNING
                       /\ currentScan a' = None.
Proof.
  eexists. split; [reflexivity|].
  apply review_has_scan.
  - exists [Add true; Capture jpeg; Extracted None; TimeoutFires]. reflexivity.
  - reflexivity.
Defined.

Lemma run_counts (es : list Event) :
  forall a a',
    single_flight a -> run a es = Some a' ->
    (count is_Capture es + pending (extracting a)
     = count is_Extracted es + pending (extracting a'))%nat
    /\ (count is_Extracted es + pending (timeout a)
        = count is_TimeoutFires es + pending (timeout a'))%nat.
Proof.
  unfold count.
  induction es as [|e es IH]; intros a a' Ha H; simpl in H.
  - inversion H; subst. simpl. split; reflexivity.
  - destruct (step a e) as [a1|] eqn:E; [| discriminate].
    destruct (IH a1 a' (single_flight_step a a1 e Ha E) H) as [IH1 IH2].
    destruct Ha as [Hidle Hone].
    destruct a as [st rs cs sc pr sm iv ex tm]. simpl in *.
    destruct e; simpl in E; split_guard E;
      try discriminate E; inversion E; subst; clear E; simpl in *;
      try (split; lia).
    + destruct sc; [rewrite andb_false_r in *; discriminate|].
      destruct (Hidle eq_refl) as [-> ->]. simpl in *. split; lia.
    + destruct Hone as [Hx|Ht]; [discriminate|]. subst. simpl in *.
      split; lia.
Qed.

(** X18: in every run the review transition fires at most once per
    capture: the captures number the extraction results delivered plus the
    one awaited, and these number the timeouts fired plus the one armed. *)
Theorem one_review_per_capture (es : list Event) (a : App) :
  run init es = Some a ->
  (count is_Capture es
   = count is_Extracted es + pending (extracting a))%nat
  /\ (count is_Extracted es
      = count is_TimeoutFires es + pending (timeout a))%nat
  /\ (count is_TimeoutFires es <= count is_Capture es)%nat.
Proof.
  intro H.
  destruct (run_counts es init a single_flight_init H) as [H1 H2].
  simpl in H1, H2. repeat split; lia.
Qed.

Lemma one_review_per_capture_witness :
  (count is_TimeoutFires
     [Add true; Capture jpeg; Close; Extracted None; TimeoutFires;
      Retake true; Capture jpeg; Tick]
   <= count is_Capture
        [Add true; Capture jpeg; Close; Extracted None; TimeoutFires;
         Retake true; Capture jpeg; Tick])%nat.
Proof.
  destruct (one_review_per_capture
              [Add true; Capture jpeg; Close; Extracted None; TimeoutFires;
               Retake true; Capture jpeg; Tick]
              (mkApp SCANNING [] None true 15 true true (Some jpeg) None)
              eq_refl) as (_ & _ & H).
  exact H.
Defined.

(** X19: closing the scanner while extraction is under way and opening it
    again does not start afresh: the scanner comes back still busy, with the
    capture button disabled, until the outstanding result has arrived. *)
Theorem reopened_scanner_stays_busy (a : App) (granted : bool) :
  reachable a -> state a = SCANNING -> extracting a <> None ->
  exists a',
    run a [Close; Add granted] = Some a'
    /\ state a' = SCANNING
    /\ isScanning a' = true
    /\ extracting a' = extracting a
    /\ forall base64, step a' (Capture base64) = None.
Proof.
  intros Hr Hs Hx.
  destruct (reachable_coherent a Hr) as ([Hidle _] & _).
  assert (Hbusy : isScanning a = true).
  { destruct (isScanning a); [reflexivity|].
    destruct (Hidle eq_refl) as [Hn _]. congruence. }
  simpl. rewrite Hs. simpl. eexists. split; [reflexivity|].
  simpl. rewrite Hbusy. repeat split.
Qed.

Lemma reopened_scanner_stays_busy_witness :
  exists a',
    run capturing [Close; Add true] = Some a'
    /\ state a' = SCANNING
    /\ isScanning a' = true
    /\ extracting a' = extracting capturing
    /\ forall base64, step a' (Capture base64) = None.
Proof.
  apply (reopened_scanner_stays_busy capturing true).
  - exists [Add true; Capture jpeg]. reflexivity.
  - reflexivity.
  - discriminate.
Defined.

End SessionRuns.
